(** * PSM ingestion and spectrum-key correction (03_load_psm_clean.py)

    A shallow embedding of the parsers, the key construction, the per-file
    loader, the chimericity aggregation, the persistence step and the control
    flow of [main], followed by the properties the design note states about
    them.

    Conventions of the embedding.
    - A Python [str] is a [string]; a character is a code point below 256.
    - A Python [int] is a [Z]; a [float] that is read from a decimal literal
      is the rational value of that literal ([Q]).
    - Code that can raise returns a [result]; [try]/[except] is [try_except].
    - A DataFrame is a header with a list of rows, each row a finite map from
      column names to cell values.
    - What a run does to the outside world (lines printed, files handed to
      workers, files written) is a list of events; the file system is a
      parameter of the functions that read it. *)

From Stdlib Require Import ZArith QArith Ascii String DecimalString DecimalZ DecimalPos Lia.
From stdpp Require Import base option list gmap strings.

Local Open Scope Z_scope.

(** ** Exceptions *)

Inductive exn : Type :=
| ValueError
| AttributeError
| KeyError
| TypeError
| ZeroDivisionError
| OtherError.

Definition exn_eqb (a b : exn) : bool :=
  match a, b with
  | ValueError, ValueError
  | AttributeError, AttributeError
  | KeyError, KeyError
  | TypeError, TypeError
  | ZeroDivisionError, ZeroDivisionError
  | OtherError, OtherError => true
  | _, _ => false
  end.

Inductive result (A : Type) : Type :=
| Ok (a : A)
| Raise (e : exn).
Arguments Ok {A} a.
Arguments Raise {A} e.

Definition rbind {A B : Type} (m : result A) (k : A -> result B) : result B :=
  match m with
  | Ok a => k a
  | Raise e => Raise e
  end.

Notation "'do' x <- m ; k" := (rbind m (fun x => k))
  (at level 10, x pattern, m at level 100, k at level 200).

(** [try: body except (e1, e2, ...): handler] *)
Definition try_except {A : Type} (body : result A) (caught : list exn)
    (handler : result A) : result A :=
  match body with
  | Ok a => Ok a
  | Raise e => if existsb (exn_eqb e) caught then handler else Raise e
  end.

(** ** Strings *)

Definition is_digit (c : ascii) : bool :=
  let n := N_of_ascii c in ((48 <=? n) && (n <=? 57))%N.

(** Code points below 256 that [str.isspace] accepts. *)
Definition py_isspace (c : ascii) : bool :=
  let n := N_of_ascii c in
  (((9 <=? n) && (n <=? 13)) || ((28 <=? n) && (n <=? 32))
   || (n =? 133) || (n =? 160))%N.

Fixpoint lstrip (s : string) : string :=
  match s with
  | String c s' => if py_isspace c then lstrip s' else s
  | EmptyString => EmptyString
  end.

Fixpoint rstrip (s : string) : string :=
  match s with
  | String c s' =>
      match rstrip s' with
      | EmptyString => if py_isspace c then EmptyString else String c EmptyString
      | t => String c t
      end
  | EmptyString => EmptyString
  end.

Definition strip (s : string) : string := rstrip (lstrip s).

Fixpoint occurs (c : ascii) (s : string) : bool :=
  match s with
  | String d s' => Ascii.eqb c d || occurs c s'
  | EmptyString => false
  end.

(** [sub] is a substring of [s] ([sub in s]). *)
Fixpoint contains (sub s : string) : bool :=
  String.prefix sub s ||
  match s with
  | String _ s' => contains sub s'
  | EmptyString => false
  end.

(** Split at the last occurrence of [sep]. *)
Fixpoint rcut (sep : ascii) (s : string) : option (string * string) :=
  match s with
  | String c s' =>
      match rcut sep s' with
      | Some (a, b) => Some (String c a, b)
      | None => if Ascii.eqb c sep then Some (EmptyString, s') else None
      end
  | EmptyString => None
  end.

(** [s.rsplit(sep, maxsplit)] for a one-character separator. *)
Fixpoint rsplit (sep : ascii) (maxsplit : nat) (s : string) : list string :=
  match maxsplit with
  | O => [s]
  | S n =>
      match rcut sep s with
      | Some (a, b) => rsplit sep n a ++ [b]
      | None => [s]
      end
  end.

(** ** Integers and their text *)

(** [str(n)], also what an f-string renders for an [int]. *)
Definition py_str_int (n : Z) : string := NilZero.string_of_int (Z.to_int n).

Definition digit_value (c : ascii) : Z := Z.of_N (N_of_ascii c) - 48.

(** The digits of an integer literal as [int()] reads them: decimal digits,
    single underscores allowed between two digits. [after_digit] tells
    whether the previous character was a digit. *)
Fixpoint int_digits (acc : Z) (after_digit : bool) (s : string) : option Z :=
  match s with
  | String c s' =>
      if is_digit c then int_digits (10 * acc + digit_value c) true s'
      else if Ascii.eqb c "_" then
        if after_digit then int_digits acc false s' else None
      else None
  | EmptyString => if after_digit then Some acc else None
  end.

(** [int(s)] in base 10: surrounding whitespace is stripped, one sign is
    allowed, leading zeros are allowed. The interpreter's cap on the number of
    digits is not modelled. *)
Definition py_int (s : string) : result Z :=
  let t := strip s in
  let r :=
    match t with
    | String c t' =>
        if Ascii.eqb c "-" then option_map Z.opp (int_digits 0 false t')
        else if Ascii.eqb c "+" then int_digits 0 false t'
        else int_digits 0 false t
    | EmptyString => None
    end in
  match r with
  | Some n => Ok n
  | None => Raise ValueError
  end.

(** ** Cell values *)

Inductive value : Type :=
| VNone                 (* None / NaN *)
| VStr (s : string)
| VInt (n : Z)
| VFloat (q : Q)
| VBool (b : bool).

Definition notna (v : value) : bool :=
  match v with
  | VNone => false
  | _ => true
  end.

Definition of_opt_str (o : option string) : value :=
  match o with Some s => VStr s | None => VNone end.
Definition of_opt_int (o : option Z) : value :=
  match o with Some n => VInt n | None => VNone end.
Definition of_opt_float (o : option Q) : value :=
  match o with Some q => VFloat q | None => VNone end.

(** ** Parsers *)

(** [spectrum_str.rsplit('.', 3)]: only a [str] has the method. *)
Definition value_rsplit (v : value) (sep : ascii) (maxsplit : nat)
    : result (list string) :=
  match v with
  | VStr s => Ok (rsplit sep maxsplit s)
  | _ => Raise AttributeError
  end.

Definition parsed_spectrum : Type := option string * option Z * option Z.

Definition parse_spectrum_column (spectrum_str : value) : result parsed_spectrum :=
  try_except
    (do parts <- value_rsplit spectrum_str "." 3;
     match parts with
     | p0 :: p1 :: _ :: p3 :: _ =>
         let mzml_name := p0 in
         do scan_number <- py_int p1;
         do charge <- py_int p3;
         Ok (Some mzml_name, Some scan_number, Some charge)
     | _ => Ok (None, None, None)
     end)
    [ValueError; AttributeError]
    (Ok (None, None, None)).

Definition create_spectrum_key (mzml_name : string) (scan_number : Z) : string :=
  mzml_name +:+ "::" +:+ py_str_int scan_number.

(** ** Regular expressions of the folder parser

    The two patterns are sequences of literal text and capturing [(\d+)]
    groups. [re_match] is [re.match]: anchored at the start, free at the end,
    each [\d+] greedy with backtracking; it returns the captured groups. *)

Inductive re_item : Type :=
| Lit (s : string)
| Digits.

Fixpoint drop_prefix (p s : string) : option string :=
  match p, s with
  | EmptyString, _ => Some s
  | String a p', String b s' => if Ascii.eqb a b then drop_prefix p' s' else None
  | String _ _, EmptyString => None
  end.

(** One [(\d+)]: the longest run of digits first, then shorter ones; [k]
    receives the captured group and the rest of the subject. *)
Fixpoint greedy_digits {R : Type} (k : string -> string -> option R) (s : string)
    : option R :=
  match s with
  | String c s' =>
      if is_digit c then
        match greedy_digits (fun g rest => k (String c g) rest) s' with
        | Some r => Some r
        | None => k (String c EmptyString) s'
        end
      else None
  | EmptyString => None
  end.

Fixpoint re_match (p : list re_item) (s : string) : option (list string) :=
  match p with
  | [] => Some []
  | Lit l :: p' =>
      match drop_prefix l s with
      | Some s' => re_match p' s'
      | None => None
      end
  | Digits :: p' =>
      greedy_digits (fun g rest => option_map (cons g) (re_match p' rest)) s
  end.

(** r'(\d+)_(\d+)_(\d+)_(\d+)mz_(\d+)' *)
Definition decimal_pattern : list re_item :=
  [Digits; Lit "_"; Digits; Lit "_"; Digits; Lit "_"; Digits; Lit "mz_"; Digits].

(** r'(\d+)_(\d+)_(\d+)mz_(\d+)' *)
Definition integer_pattern : list re_item :=
  [Digits; Lit "_"; Digits; Lit "_"; Digits; Lit "mz_"; Digits].

(** ** Decimal literals read by [float()] *)

Fixpoint take_digits (s : string) : string * string :=
  match s with
  | String c s' =>
      if is_digit c then let '(d, r) := take_digits s' in (String c d, r)
      else (EmptyString, s)
  | EmptyString => (EmptyString, EmptyString)
  end.

Fixpoint digits_value (acc : Z) (s : string) : Z :=
  match s with
  | String c s' => digits_value (10 * acc + digit_value c) s'
  | EmptyString => acc
  end.

Definition is_empty (s : string) : bool :=
  match s with EmptyString => true | _ => false end.

(** [float(s)] on plain decimal literals, [digits], [digits.digits], with an
    optional sign and surrounding whitespace: the only spellings the folder
    parser builds. The value is the rational the literal denotes, which the
    interpreter rounds to the nearest double. Exponents, underscores and the
    special values [inf] and [nan] are outside this fragment. *)
Definition py_float (s : string) : result Q :=
  let t := strip s in
  let '(sign, u) :=
    match t with
    | String c t' =>
        if Ascii.eqb c "-" then (-1, t')
        else if Ascii.eqb c "+" then (1, t')
        else (1, t)
    | EmptyString => (1, t)
    end in
  let '(ip, r) := take_digits u in
  match r with
  | EmptyString =>
      if is_empty ip then Raise ValueError
      else Ok (Qmake (sign * digits_value 0 ip) 1)
  | String "." r' =>
      let '(fp, r'') := take_digits r' in
      if negb (is_empty r'') || (is_empty ip && is_empty fp) then Raise ValueError
      else
        let scale := 10 ^ Z.of_nat (String.length fp) in
        Ok (Qmake (sign * (digits_value 0 ip * scale + digits_value 0 fp))
                  (Z.to_pos scale))
  | _ => Raise ValueError
  end.

Definition parse_folder_name (folder_name : string) : result (option Q * option Z) :=
  (* Decimal format: 1_6mz = 1.6 *)
  match re_match decimal_pattern folder_name with
  | Some [_; _; g3; g4; g5] =>
      do window <- py_float (g3 +:+ "." +:+ g4);
      do replicate <- py_int g5;
      Ok (Some window, Some replicate)
  | _ =>
      (* Integer format: 24mz *)
      match re_match integer_pattern folder_name with
      | Some [_; _; g3; g4] =>
          do window <- py_float g3;
          do replicate <- py_int g4;
          Ok (Some window, Some replicate)
      | _ => Ok (None, None)
      end
  end.

(** ** Paths *)

(** A [pathlib.Path]: the anchor (empty for a relative path) and the
    components below it. *)
Record Path : Type := mkPath { anchor : string; names : list string }.

Definition parts (p : Path) : list string :=
  (if is_empty (anchor p) then [] else [anchor p]) ++ names p.

Definition parent (p : Path) : Path :=
  {| anchor := anchor p; names := removelast (names p) |}.

Definition name (p : Path) : string := List.last (names p) EmptyString.

(** [p / child] for a single component. *)
Definition joinpath (p : Path) (child : string) : Path :=
  {| anchor := anchor p; names := names p ++ [child] |}.

Infix "//" := joinpath (at level 40, left associativity).

Global Instance Path_eq_dec : EqDecision Path.
Proof. solve_decision. Defined.

(** ** Data frames *)

Global Instance Q_eq_dec : EqDecision Q.
Proof. solve_decision. Defined.

Global Instance value_eq_dec : EqDecision value.
Proof. solve_decision. Defined.

Definition value_enc (v : value) : unit + string + Z + (Z * positive) + bool :=
  match v with
  | VNone => inl (inl (inl (inl tt)))
  | VStr s => inl (inl (inl (inr s)))
  | VInt n => inl (inl (inr n))
  | VFloat q => inl (inr (Qnum q, Qden q))
  | VBool b => inr b
  end.

Definition value_dec (x : unit + string + Z + (Z * positive) + bool) : value :=
  match x with
  | inl (inl (inl (inl _))) => VNone
  | inl (inl (inl (inr s))) => VStr s
  | inl (inl (inr n)) => VInt n
  | inl (inr (a, b)) => VFloat (Qmake a b)
  | inr b => VBool b
  end.

Global Instance value_countable : Countable value.
Proof.
  refine (inj_countable' value_enc value_dec _).
  intros [| | |[]|]; reflexivity.
Defined.

Record DataFrame : Type := mkFrame {
  columns : list string;
  rows : list (gmap string value)
}.

(** The cell of a row under a column; a column the row's source file did not
    have reads as NaN, as after [pd.concat]. *)
Definition cell (r : gmap string value) (c : string) : value :=
  default VNone (r !! c).

Definition has_column (df : DataFrame) (c : string) : bool :=
  bool_decide (c ∈ columns df).

Definition add_name (cols : list string) (c : string) : list string :=
  if bool_decide (c ∈ cols) then cols else cols ++ [c].

(** [df[c]] *)
Definition getitem (df : DataFrame) (c : string) : result (list value) :=
  if has_column df c then Ok ((fun r => cell r c) <$> rows df)
  else Raise KeyError.

(** [df[c] = v] for a scalar [v] *)
Definition set_scalar (c : string) (v : value) (df : DataFrame) : DataFrame :=
  {| columns := add_name (columns df) c;
     rows := (fun r => <[c := v]> r) <$> rows df |}.

(** [df[c] = vals] for a list of values, one per row *)
Definition set_column (c : string) (vals : list value) (df : DataFrame)
    : result DataFrame :=
  if (length vals =? length (rows df))%nat then
    Ok {| columns := add_name (columns df) c;
          rows := zip_with (fun r v => <[c := v]> r) (rows df) vals |}
  else Raise ValueError.

Fixpoint mapM {A B : Type} (f : A -> result B) (l : list A) : result (list B) :=
  match l with
  | [] => Ok []
  | a :: l' => do b <- f a; do bs <- mapM f l'; Ok (b :: bs)
  end.

(** [df[mask]] for a boolean column: the rows whose flag is [True]. *)
Definition select_true (c : string) (df : DataFrame) : DataFrame :=
  {| columns := columns df;
     rows := filter (fun r => cell r c = VBool true) (rows df) |}.

(** [pd.concat(dataframes, ignore_index=True)]: the union of the columns in
    order of first appearance, the rows of each frame in turn. *)
Definition pd_concat (dataframes : list DataFrame) : result DataFrame :=
  match dataframes with
  | [] => Raise ValueError
  | _ =>
      Ok {| columns := foldl (fun acc df => foldl add_name acc (columns df)) [] dataframes;
            rows := mjoin (rows <$> dataframes) |}
  end.

(** [series.groupby(level).size()] on the values of a column: the number of
    rows per non-null key. *)
Definition groupby_size (keys : list value) : gmap value nat :=
  foldr (fun k m => if notna k then <[k := S (default O (m !! k))]> m else m) ∅ keys.

(** [series.map(counts)] at one cell *)
Definition map_counts (counts : gmap value nat) (k : value) : value :=
  match counts !! k with
  | Some n => if notna k then VInt (Z.of_nat n) else VNone
  | None => VNone
  end.

(** [v >= k] for a cell of a numeric column and an integer; NaN compares
    false, a string cannot be compared with a number. *)
Definition ge_int (v : value) (k : Z) : result value :=
  match v with
  | VNone => Ok (VBool false)
  | VInt n => Ok (VBool (k <=? n))
  | VFloat q => Ok (VBool (Qle_bool (inject_Z k) q))
  | VBool b => Ok (VBool (k <=? Z.b2z b))
  | VStr _ => Raise TypeError
  end.

(** The columns [load_single_psm_file] assigns. *)
Definition loader_columns : list string :=
  ["source_folder"; "window_mz"; "replicate"; "mzml_name"; "scan_number";
   "charge_from_spectrum"; "spectrum_key"].

(** The lambda of the row-wise [df.apply] that builds the key. *)
Definition key_of_row (row : gmap string value) : value :=
  if notna (cell row "mzml_name") && notna (cell row "scan_number") then
    match cell row "mzml_name", cell row "scan_number" with
    | VStr mzml_name, VInt scan_number =>
        VStr (create_spectrum_key mzml_name scan_number)
    | _, _ => VNone
    end
  else VNone.

Section Loader.

(** [pd.read_csv(psm_file, sep='\t', low_memory=False)] on the file system
    of one execution. *)
Variable read_csv : Path -> result DataFrame.

(** The body of the [try] block of [load_single_psm_file]. Cells hold the
    Python values the parsers return; how pandas stores a column (a column of
    integers with missing entries is kept as floats) is not modelled. *)
Definition load_body (psm_file : Path) (folder_name : string)
    : result (option DataFrame) :=
  do df <- read_csv psm_file;
  if (length (rows df) =? 0)%nat then Ok None
  else
    do parsed_folder <- parse_folder_name folder_name;
    let '(window_mz, replicate) := parsed_folder in
    let df := set_scalar "source_folder" (VStr folder_name) df in
    let df := set_scalar "window_mz" (of_opt_float window_mz) df in
    let df := set_scalar "replicate" (of_opt_int replicate) df in
    do spectrum <- getitem df "Spectrum";
    do spectrum_parsed <- mapM parse_spectrum_column spectrum;
    do df <- set_column "mzml_name"
               ((fun p : parsed_spectrum => of_opt_str p.1.1) <$> spectrum_parsed) df;
    do df <- set_column "scan_number"
               ((fun p : parsed_spectrum => of_opt_int p.1.2) <$> spectrum_parsed) df;
    do df <- set_column "charge_from_spectrum"
               ((fun p : parsed_spectrum => of_opt_int p.2) <$> spectrum_parsed) df;
    do df <- set_column "spectrum_key" (key_of_row <$> rows df) df;
    Ok (Some df).

(** [except Exception] prints the error in the worker and gives the file
    up. *)
Definition load_single_psm_file (psm_file : Path) : option DataFrame :=
  let folder_name := name (parent psm_file) in
  (* Skip library folder *)
  if String.eqb folder_name "lib" then None
  else
    match load_body psm_file folder_name with
    | Ok r => r
    | Raise _ => None
    end.

(** [pool.map] keeps the order of its argument; the frames that are not
    [None] are concatenated. *)
Definition load_all (psm_files : list Path) : result DataFrame :=
  let results := load_single_psm_file <$> psm_files in
  let dataframes := omap id results in
  pd_concat dataframes.

End Loader.

(** The chimericity block of [add_derived_columns] (PSMs per spectrum). The
    window-category and peptide-length blocks write two further columns,
    [window_category] and [peptide_length], and read only [window_mz] and
    [Peptide]; neither what they write nor how they can fail is part of this
    embedding. *)
Definition add_derived_columns (df : DataFrame) : result DataFrame :=
  do keys <- getitem df "spectrum_key";
  let psm_counts := groupby_size keys in
  do df <- set_column "n_psm" (map_counts psm_counts <$> keys) df;
  do n_psm <- getitem df "n_psm";
  do flags <- mapM (fun v => ge_int v 2) n_psm;
  do df <- set_column "is_chimeric" flags df;
  Ok df.

(** ** Validation summary and persistence *)

(** [series.nunique()]: the number of distinct non-null values. *)
Definition nunique (vals : list value) : nat :=
  size (list_to_set (filter (fun v => notna v = true) vals) : gset value).

(** The dictionary [print_validation_stats] returns, without its
    [window_sizes] entry. *)
Record Summary : Type := mkSummary {
  n_psm : nat;
  n_spectra : nat;
  n_files : nat;
  n_chimeric_spectra : nat;
  avg_psm_per_spectrum : Q;
  summary_columns : list string
}.

(** [df.groupby(key)[col].first().to_dict()]: per non-null key, the first
    non-null value of [col]. *)
Definition groupby_first (key col : string) (df : DataFrame) : gmap value value :=
  foldl (fun m r =>
           let k := cell r key in
           if notna k then
             match m !! k with
             | Some v => if notna v then m else <[k := cell r col]> m
             | None => <[k := cell r col]> m
             end
           else m)
        ∅ (rows df).

Inductive pickled : Type :=
| PMapping (m : gmap value value)
| PSummary (s : Summary).

(** What an execution does to the outside world. [Print] carries the text of
    the format string as written; interpolated values are not rendered. *)
Inductive event : Type :=
| Print (text : string)
| Load (psm_file : Path)
| MkDir (p : Path)
| WriteCsv (p : Path) (df : DataFrame)
| WritePickle (p : Path) (obj : pickled).

Inductive status : Type :=
| Returned
| Exit (code : Z)
| Uncaught (e : exn).

(** Effectful steps: the events so far and a value or an exception. *)
Definition action (A : Type) : Type := list event * result A.

Definition abind {A B : Type} (m : action A) (k : A -> action B) : action B :=
  match m with
  | (out, Ok a) => let '(out', r) := k a in (out ++ out', r)
  | (out, Raise e) => (out, Raise e)
  end.

Definition emit (es : list event) : action unit := (es, Ok tt).
Definition lift {A : Type} (r : result A) : action A := ([], r).

Notation "'perform' x <- m ; k" := (abind m (fun x => k))
  (at level 10, x pattern, m at level 100, k at level 200).

Definition nl : string := String (ascii_of_nat 10) EmptyString.

Definition rule : string :=
  "======================================================================".

(** [print_validation_stats]: the report, line by line, and the returned
    dictionary. The division by the number of spectra raises when no row has
    a key. *)
Definition print_validation_stats (df : DataFrame) : action Summary :=
  perform _ <- emit [Print (nl +:+ rule); Print "VALIDATION"; Print rule];
  let n_psm := length (rows df) in
  perform keys <- lift (getitem df "spectrum_key");
  let n_spectra := nunique keys in
  perform names <- lift (getitem df "mzml_name");
  let n_files := nunique names in
  perform _ <- lift (getitem df "is_chimeric");
  perform chimeric_keys <- lift (getitem (select_true "is_chimeric" df) "spectrum_key");
  let n_chimeric := nunique chimeric_keys in
  perform _ <- emit [Print "Total PSMs: {n_psm:,}";
                 Print "Unique spectra: {n_spectra:,}";
                 Print "mzML files: {n_files}"];
  perform _ <- lift (if (n_spectra =? 0)%nat then Raise ZeroDivisionError else Ok tt);
  perform _ <- emit [Print "Average PSM/spectrum: {n_psm/n_spectra:.2f}"];
  (* Window distribution *)
  perform _ <- emit [Print (nl +:+ "PSMs by window size:")];
  perform _ <- lift (getitem df "window_mz");
  perform _ <- emit [Print "{window_stats}"];
  (* Chimericity distribution *)
  perform _ <- emit [Print (nl +:+ "Chimericity distribution:")];
  perform _ <- lift (getitem df "n_psm");
  let chimeric_dist :=
    remove_dups (filter (fun v => notna v = true)
                   (snd <$> map_to_list (groupby_first "spectrum_key" "n_psm" df))) in
  perform _ <- emit ((fun _ => Print "  {n_psm_val} PSM: {count:,} spectra ({pct:.1f}%)")
                 <$> take 6 chimeric_dist);
  (* Bug fix verification *)
  perform _ <- emit [Print (nl +:+ rule); Print "BUG FIX VERIFICATION"; Print rule];
  perform _ <- lift (getitem df "scan_number");
  perform _ <- emit [Print "Scan 988 appears in {n_files_scan988} different mzML files";
                 Print "  → Old key (scan only): Would get WRONG spectrum!";
                 Print "  → New key (file::scan): Gets CORRECT spectrum ✓"];
  (* Sample keys *)
  perform _ <- emit [Print (nl +:+ "Sample spectrum_keys:")];
  perform _ <- emit ((fun _ => Print "  {key}")
                 <$> take 3 (filter (fun v => notna v = true) keys));
  lift (Ok {| n_psm := n_psm;
              n_spectra := n_spectra;
              n_files := n_files;
              n_chimeric_spectra := n_chimeric;
              avg_psm_per_spectrum := Qmake (Z.of_nat n_psm) (Pos.of_nat n_spectra);
              summary_columns := columns df |}).

(** How the process ends: a normal return, [sys.exit(code)], or an exception
    nobody caught. *)
Definition status_of (r : result unit) : status :=
  match r with
  | Ok _ => Returned
  | Raise e => Uncaught e
  end.

Record Config : Type := mkConfig {
  project_dir : Path;
  output_dir : Path;
  psm_dir : option Path;
  mzml_dir : option Path;
  n_cores : Z
}.

Definition with_psm_dir (config : Config) (d : option Path) : Config :=
  {| project_dir := project_dir config; output_dir := output_dir config;
     psm_dir := d; mzml_dir := mzml_dir config; n_cores := n_cores config |}.

Definition with_mzml_dir (config : Config) (d : option Path) : Config :=
  {| project_dir := project_dir config; output_dir := output_dir config;
     psm_dir := psm_dir config; mzml_dir := d; n_cores := n_cores config |}.

Definition with_n_cores (config : Config) (n : Z) : Config :=
  {| project_dir := project_dir config; output_dir := output_dir config;
     psm_dir := psm_dir config; mzml_dir := mzml_dir config; n_cores := n |}.

(** The parsed command line. *)
Record Args : Type := mkArgs {
  arg_cores : Z;
  arg_psm_dir : option string;
  arg_mzml_dir : option string;
  arg_dry_run : bool
}.

(** Truthiness of an optional string argument: given and not empty. *)
Definition given (a : option string) : option string :=
  match a with
  | Some s => if is_empty s then None else Some s
  | None => None
  end.

Definition save_outputs (df : DataFrame) (config : Config) (summary : Summary)
    : list event :=
  let psm_file := output_dir config // "psm_clean.csv" in
  let chimeric_file := output_dir config // "psm_chimeric.csv" in
  let df_chimeric := select_true "is_chimeric" df in
  let spectrum_to_file := groupby_first "spectrum_key" "mzml_name" df in
  let mapping_file := output_dir config // "spectrum_to_file.pkl" in
  let stats_file := output_dir config // "psm_stats.pkl" in
  [ Print (nl +:+ rule); Print "SAVING"; Print rule;
    MkDir (output_dir config);
    WriteCsv psm_file df;
    Print "✅ {psm_file.name} ({file_size_mb:.1f} MB)";
    WriteCsv chimeric_file df_chimeric;
    Print "✅ {chimeric_file.name} ({len(df_chimeric):,} PSMs)";
    WritePickle mapping_file (PMapping spectrum_to_file);
    Print "✅ {mapping_file.name} ({len(spectrum_to_file):,} spectra)";
    WritePickle stats_file (PSummary summary);
    Print "✅ {stats_file.name}" ].

(** The header [main] prints before it looks for the input. *)
Definition banner (config : Config) : list event :=
  [ Print rule; Print "03. LOAD PSM WITH CORRECT SPECTRUM KEYS"; Print rule;
    Print "⚠️  CRITICAL BUG FIX:";
    Print "   Old: key = scan_number (overlaps between files!)";
    Print "   New: key = mzml_name::scan_number ✓";
    Print rule;
    Print "Project dir: {config.project_dir}";
    Print "Output dir: {config.output_dir}";
    Print "Cores: {config.n_cores}" ]
  ++ match mzml_dir config with
     | Some _ => [Print "mzML dir: {config.mzml_dir}"]
     | None => []
     end.

(** The [lib] test of the file discovery in [main]. *)
Definition not_in_lib (f : Path) : bool :=
  negb (bool_decide ("lib" ∈ parts f)).

Section Main.

(** The outside world of one execution. *)
Variable read_csv : Path -> result DataFrame.
Variable path_exists : Path -> bool.
Variable rglob : Path -> string -> list Path.
Variable path_of_str : string -> Path.
(** The project root [Config.auto_detect] settles on, and [cpu_count()]. *)
Variable detected_project_dir : Path.
Variable cpu_count : Z.

Definition auto_detect : Config :=
  {| project_dir := detected_project_dir;
     output_dir := detected_project_dir // "processed_data";
     psm_dir := None;
     mzml_dir := None;
     n_cores := Z.min 64 cpu_count |}.

Definition find_psm_directory (config : Config) : option Path :=
  let search_paths :=
    [ project_dir config // "raw_data" // "PXD037527" // "1.6-48mz_30m" // "fragpipe";
      project_dir config // "raw_data" // "PXD037527" // "1.6-48mz_30m";
      project_dir config // "raw_data" // "1.6-48mz_30m" // "fragpipe";
      project_dir config // "raw_data" // "fragpipe" ] in
  List.find
    (fun path =>
       path_exists path &&
       match rglob path "psm.tsv" with [] => false | _ :: _ => true end)
    search_paths.

(** [main] from the discovery of the PSM files on, once the directory is
    known. [pool.map] hands every file to a worker. *)
Definition main_load (args : Args) (config : Config) (dir : Path) : action unit :=
  perform _ <- emit [Print "PSM dir: {config.psm_dir}"];
  (* Find PSM files *)
  let psm_files := filter (fun f => not_in_lib f = true) (rglob dir "psm.tsv") in
  perform _ <- emit [Print (nl +:+ "Found {len(psm_files)} PSM files")];
  (* Show sample folders *)
  let folders := remove_dups ((fun f => name (parent f)) <$> psm_files) in
  perform _ <- emit [Print "Folders: {len(folders)}"];
  perform _ <- emit ((fun _ => Print "  {folder} → window={window} mz, rep={rep}")
                 <$> take 5 folders);
  if arg_dry_run args then
    emit [Print (nl +:+ "[DRY RUN] Would load {len(psm_files)} files")]
  else
    (* Load PSM files in parallel *)
    perform _ <- emit [Print (nl +:+ "Loading with {config.n_cores} cores...")];
    (* Pool(n) wants at least one process *)
    perform _ <- lift (if n_cores config <? 1 then Raise ValueError else Ok tt);
    perform _ <- emit (Load <$> psm_files);
    perform _ <- emit [Print "Successfully loaded {len(dataframes)} files";
                   Print "Concatenating dataframes..."];
    perform df_all <- lift (load_all read_csv psm_files);
    perform _ <- emit [Print "Loaded {len(df_all):,} PSMs in {load_time:.1f}s"];
    (* Add derived columns *)
    perform _ <- emit [Print (nl +:+ "Computing derived columns...")];
    perform df_all <- lift (add_derived_columns df_all);
    (* Validation and statistics *)
    perform summary <- print_validation_stats df_all;
    (* Save outputs *)
    perform _ <- emit (save_outputs df_all config summary);
    (* Final summary *)
    emit [ Print (nl +:+ rule); Print "✅ COMPLETE"; Print rule;
           Print "Total time: {total_time:.1f}s";
           Print "PSMs: {summary['n_psm']:,}";
           Print "Spectra: {summary['n_spectra']:,}";
           Print "Chimeric: {summary['n_chimeric_spectra']:,} ({chimeric_pct:.1f}%)";
           Print (nl +:+ "🔧 spectrum_key now uses mzml_name::scan - BUG FIXED!") ].

(** "Initialize configuration": the detected paths, overridden by the
    command line. *)
Definition initial_config (args : Args) : Config :=
  let config := auto_detect in
  let config := with_n_cores config (arg_cores args) in
  let config :=
    match given (arg_psm_dir args) with
    | Some s => with_psm_dir config (Some (path_of_str s))
    | None => config
    end in
  match given (arg_mzml_dir args) with
  | Some s => with_mzml_dir config (Some (path_of_str s))
  | None => config
  end.

Definition error_report : list event :=
  [ Print (nl +:+ "❌ ERROR: Cannot find PSM directory!");
    Print "   Specify with: --psm-dir /path/to/fragpipe/" ].

Definition main (args : Args) : list event * status :=
  let config := initial_config args in
  let out := banner config in
  (* Find PSM directory *)
  let config :=
    match psm_dir config with
    | None => with_psm_dir config (find_psm_directory config)
    | Some _ => config
    end in
  match psm_dir config with
  | Some dir =>
      if path_exists dir then
        let '(out', r) := main_load args config dir in
        (out ++ out', status_of r)
      else (* sys.exit(1) *)
        (out ++ error_report, Exit 1)
  | None => (out ++ error_report, Exit 1)
  end.

End Main.

(** ** Vocabulary of the properties *)

(** Occurrences of a character. *)
Fixpoint count_char (c : ascii) (s : string) : nat :=
  match s with
  | String d s' => (if Ascii.eqb c d then 1 else 0) + count_char c s'
  | EmptyString => 0
  end.

(** The text of an identifier with run name [run] and trailing segments
    [a], [b], [c]. *)
Definition dotted (run a b c : string) : string :=
  run +:+ "." +:+ a +:+ "." +:+ b +:+ "." +:+ c.

(** A non-empty run of decimal digits: what one [(\d+)] captures. *)
Fixpoint all_digits (s : string) : bool :=
  match s with
  | String c s' => is_digit c && all_digits s'
  | EmptyString => true
  end.

Definition digit_run (s : string) : Prop :=
  all_digits s = true ∧ s ≠ EmptyString.

(** The text does not go on with a digit. *)
Definition stops_digits (t : string) : bool :=
  match t with
  | String c _ => negb (is_digit c)
  | EmptyString => true
  end.

(** The value [float] reads from [ip.fp]. *)
Definition decimal_value (ip fp : string) : Q :=
  let scale := 10 ^ Z.of_nat (String.length fp) in
  Qmake (digits_value 0 ip * scale + digits_value 0 fp) (Z.to_pos scale).

(** The outcome of [parse_spectrum_column] on a cell, which never raises. *)
Definition parsed_of (v : value) : parsed_spectrum :=
  match parse_spectrum_column v with
  | Ok r => r
  | Raise _ => (None, None, None)
  end.

(** What [load_single_psm_file] makes of one row of a file in folder
    [folder_name] whose name reads as [window_mz] and [replicate]. *)
Definition loaded_row (folder_name : string) (window_mz : option Q)
    (replicate : option Z) (r : gmap string value) : gmap string value :=
  let r := <["source_folder" := VStr folder_name]> r in
  let r := <["window_mz" := of_opt_float window_mz]> r in
  let r := <["replicate" := of_opt_int replicate]> r in
  let p := parsed_of (cell r "Spectrum") in
  let r := <["mzml_name" := of_opt_str p.1.1]> r in
  let r := <["scan_number" := of_opt_int p.1.2]> r in
  let r := <["charge_from_spectrum" := of_opt_int p.2]> r in
  <["spectrum_key" := key_of_row r]> r.

(** The columns of a loaded frame. *)
Definition loaded_columns (cols : list string) : list string :=
  foldl add_name cols loader_columns.

(** The number of records of a table that carry the spectrum key [k]. *)
Definition records_sharing (k : value) (df : DataFrame) : nat :=
  length (filter (fun r => cell r "spectrum_key" = k) (rows df)).

(** What [add_derived_columns] makes of one row, given the group sizes. *)
Definition annotated_row (psm_counts : gmap value nat) (r : gmap string value)
    : gmap string value :=
  let n := map_counts psm_counts (cell r "spectrum_key") in
  let flag :=
    match n with
    | VInt m => 2 <=? m
    | _ => false
    end in
  <["is_chimeric" := VBool flag]> (<["n_psm" := n]> r).

(** Two outcomes of building a table agree up to the order of rows (and of
    columns): the same failure, or tables with the same number of rows, the
    same rows as multisets and the same column names. *)
Definition same_table (a b : result DataFrame) : Prop :=
  match a, b with
  | Ok d, Ok d' =>
      length (rows d) = length (rows d') ∧
      rows d ≡ₚ rows d' ∧
      (∀ c, c ∈ columns d ↔ c ∈ columns d')
  | Raise e, Raise e' => e = e'
  | _, _ => False
  end.

(** The event is a line of output. *)
Definition is_print (e : event) : bool :=
  match e with
  | Print _ => true
  | _ => false
  end.

(** The table [main] hands to [save_outputs]: the loaded files, concatenated
    and annotated. *)
Definition consolidated (read_csv : Path → result DataFrame) (psm_files : list Path)
    : result DataFrame :=
  do df_all <- load_all read_csv psm_files;
  add_derived_columns df_all.

(** The claim that the key joins its two components with a delimiter that
    occurs in neither. *)
Definition delimiter_safe (mzml_name : string) (scan_number : Z) : Prop :=
  create_spectrum_key mzml_name scan_number
    = mzml_name +:+ "::" +:+ py_str_int scan_number ∧
  contains "::" mzml_name = false ∧
  contains "::" (py_str_int scan_number) = false.

(** ** Sample data *)

(** Three records of one spectrum and one record of another. *)
Definition chimeric_example : DataFrame :=
  mkFrame ["Peptide"; "spectrum_key"]
    [ {[ "Peptide" := VStr "PEPTIDEA"; "spectrum_key" := VStr "RunA::988" ]};
      {[ "Peptide" := VStr "PEPTIDEB"; "spectrum_key" := VStr "RunB::988" ]};
      {[ "Peptide" := VStr "PEPTIDEC"; "spectrum_key" := VStr "RunA::988" ]};
      {[ "Peptide" := VStr "PEPTIDED"; "spectrum_key" := VStr "RunA::988" ]} ].


(** A file in a library folder, and two files in run folders. *)
Definition lib_file : Path := mkPath "/" ["fragpipe"; "lib"; "psm.tsv"].
Definition run_file : Path := mkPath "/" ["fragpipe"; "86_45_24mz_2"; "psm.tsv"].
Definition other_file : Path := mkPath "/" ["fragpipe"; "118_60_1_6mz_1"; "psm.tsv"].

(** Two identifications, the second with an identifier that does not parse. *)
Definition run_table : DataFrame :=
  mkFrame ["Spectrum"; "Peptide"]
    [ {[ "Spectrum" := VStr "RunA.00988.00988.2"; "Peptide" := VStr "PEPTIDEA" ]};
      {[ "Spectrum" := VStr "bad_identifier"; "Peptide" := VStr "PEPTIDEB" ]} ].

Definition other_table : DataFrame :=
  mkFrame ["Spectrum"; "Peptide"]
    [ {[ "Spectrum" := VStr "RunB.00988.00988.3"; "Peptide" := VStr "PEPTIDEC" ]} ].

(** A file system that holds the two run files and nothing else. *)
Definition two_runs (p : Path) : result DataFrame :=
  if bool_decide (p = run_file) then Ok run_table
  else if bool_decide (p = other_file) then Ok other_table
  else Raise OtherError.

(** An installation without any PSM directory. *)
Definition nothing_exists (p : Path) : bool := false.
Definition nothing_found (p : Path) (pattern : string) : list Path := [].
Definition one_component (s : string) : Path := mkPath "" [s].
Definition some_project : Path := mkPath "/" ["project"; "code"].
Definition default_args : Args := mkArgs 64 None None false.

(** The table a loader call returned (the empty table when it gave the file
    up), and the row of a table at an index (the empty row past the end). *)
Definition loaded_of (o : option DataFrame) : DataFrame :=
  match o with
  | Some df => df
  | None => mkFrame [] []
  end.

Definition row_at (df : DataFrame) (i : nat) : gmap string value :=
  default ∅ (rows df !! i).

(** The table of an outcome (the empty table for a failure). *)
Definition table_of (r : result DataFrame) : DataFrame :=
  match r with
  | Ok df => df
  | Raise _ => mkFrame [] []
  end.
(** * Properties *)

(** ** Facts about strings *)

Section StringFacts.

Lemma app_cons (c : ascii) (s t : string) : String c s +:+ t = String c (s +:+ t).
Proof. reflexivity. Qed.

Lemma app_nil (t : string) : "" +:+ t = t.
Proof. reflexivity. Qed.

Lemma app_empty_r (s : string) : s +:+ "" = s.
Proof. induction s as [|c s IH]; [done | by rewrite app_cons, IH]. Qed.

Lemma app_assoc_s (a b c : string) : (a +:+ b) +:+ c = a +:+ b +:+ c.
Proof. induction a as [|x a IH]; [done | by rewrite !app_cons, IH]. Qed.

Lemma app_inj_tail_char (a b : string) (c : ascii) :
  a +:+ String c "" = b +:+ String c "" → a = b.
Proof.
  revert b. induction a as [|x a IH]; intros [|y b]; rewrite ?app_cons, ?app_nil; intros H.
  - done.
  - injection H as _ H. by destruct b.
  - injection H as _ H. by destruct a.
  - injection H as -> H. f_equal. by apply IH.
Qed.

Lemma occurs_app (c : ascii) (a b : string) :
  occurs c (a +:+ b) = occurs c a || occurs c b.
Proof.
  induction a as [|x a IH]; [done |].
  rewrite app_cons. simpl. by rewrite IH, orb_assoc.
Qed.

Lemma rcut_absent (sep : ascii) (s : string) :
  occurs sep s = false → rcut sep s = None.
Proof.
  induction s as [|c s IH]; simpl; [done |].
  intros [Hc Hs]%orb_false_iff. rewrite (IH Hs).
  rewrite Ascii.eqb_sym in Hc. by rewrite Hc.
Qed.

Lemma rcut_last (sep : ascii) (a b : string) :
  occurs sep b = false → rcut sep (a +:+ String sep b) = Some (a, b).
Proof.
  intros Hb. induction a as [|c a IH]; rewrite ?app_cons, ?app_nil; simpl.
  - by rewrite (rcut_absent _ _ Hb), Ascii.eqb_refl.
  - by rewrite IH.
Qed.

Lemma rcut_spec (sep : ascii) (s a b : string) :
  rcut sep s = Some (a, b) → s = a +:+ String sep b ∧ occurs sep b = false.
Proof.
  revert a b. induction s as [|c s IH]; simpl; intros a b H; [done |].
  destruct (rcut sep s) as [[a' b']|] eqn:E.
  - injection H as <- <-. destruct (IH _ _ eq_refl) as [-> Hb]. done.
  - destruct (Ascii.eqb_spec c sep) as [->|]; [|done].
    injection H as <- <-. split; [done |].
    clear IH. induction s as [|d s IHs]; simpl in *; [done |].
    destruct (rcut sep s) as [[]|]; [done |].
    destruct (Ascii.eqb_spec d sep) as [|Hne]; [done |].
    rewrite IHs by done. rewrite orb_false_r.
    apply Ascii.eqb_neq. congruence.
Qed.

Lemma contains_absent (c : ascii) (t s : string) :
  occurs c s = false → contains (String c t) s = false.
Proof.
  induction s as [|d s IH]; simpl; [done |].
  intros [Hc Hs]%orb_false_iff.
  rewrite (IH Hs), orb_false_r.
  destruct (ascii_dec c d) as [->|]; [by rewrite Ascii.eqb_refl in Hc | done].
Qed.

End StringFacts.

(** ** The text of an integer *)

Lemma string_of_uint_no_char (c : ascii) (d : Decimal.uint) :
  is_digit c = false → occurs c (NilEmpty.string_of_uint d) = false.
Proof.
  intros Hc. induction d; simpl; try done;
    rewrite IHd, orb_false_r; apply Ascii.eqb_neq; intros ->; done.
Qed.

Lemma py_str_int_no_colon (n : Z) : occurs ":" (py_str_int n) = false.
Proof.
  unfold py_str_int.
  assert (H : ∀ d, occurs ":" (NilZero.string_of_uint d) = false).
  { intros d. destruct d; try done; by apply (string_of_uint_no_char ":"). }
  destruct (Z.to_int n); simpl; by rewrite H.
Qed.

Lemma py_str_int_inj (n m : Z) : py_str_int n = py_str_int m → n = m.
Proof.
  unfold py_str_int. intros H.
  assert (Hnn : ∀ z, Z.to_int z ≠ Decimal.Pos Decimal.Nil ∧ Z.to_int z ≠ Decimal.Neg Decimal.Nil).
  { intros [|p|p]; simpl; split; try done; intros [= E]; by apply (Unsigned.to_uint_nonnil p). }
  apply to_int_inj.
  destruct (Hnn n) as [Hn1 Hn2], (Hnn m) as [Hm1 Hm2].
  assert (E : NilZero.int_of_string (NilZero.string_of_int (Z.to_int n))
            = NilZero.int_of_string (NilZero.string_of_int (Z.to_int m))) by by rewrite H.
  rewrite !NilZero.isi in E by done. by injection E.
Qed.

Lemma create_spectrum_key_rcut (mzml_name : string) (scan_number : Z) :
  rcut ":" (create_spectrum_key mzml_name scan_number)
  = Some (mzml_name +:+ ":", py_str_int scan_number).
Proof.
  unfold create_spectrum_key.
  replace (mzml_name +:+ "::" +:+ py_str_int scan_number)
    with ((mzml_name +:+ ":") +:+ String ":" (py_str_int scan_number))
    by (by rewrite app_assoc_s).
  apply rcut_last, py_str_int_no_colon.
Qed.

Lemma create_spectrum_key_inj (run1 run2 : string) (scan1 scan2 : Z) :
  create_spectrum_key run1 scan1 = create_spectrum_key run2 scan2 →
  run1 = run2 ∧ scan1 = scan2.
Proof.
  intros H.
  assert (E := create_spectrum_key_rcut run1 scan1).
  rewrite H, create_spectrum_key_rcut in E.
  injection E as E1 E2. split.
  - symmetry. by apply (app_inj_tail_char _ _ ":").
  - symmetry. by apply py_str_int_inj.
Qed.

(** ** Splitting from the right *)

Lemma count_char_zero (c : ascii) (s : string) :
  count_char c s = 0%nat ↔ occurs c s = false.
Proof.
  induction s as [|d s IH]; simpl; [done |].
  destruct (Ascii.eqb c d); simpl; [split; done | done].
Qed.

Lemma count_char_app (c : ascii) (a b : string) :
  count_char c (a +:+ b) = (count_char c a + count_char c b)%nat.
Proof.
  induction a as [|x a IH]; [done |].
  rewrite app_cons. simpl. rewrite IH. lia.
Qed.

Lemma rcut_count (sep : ascii) (s a b : string) :
  rcut sep s = Some (a, b) → count_char sep s = S (count_char sep a).
Proof.
  intros [-> Hb]%rcut_spec.
  rewrite count_char_app. simpl. rewrite Ascii.eqb_refl.
  apply count_char_zero in Hb. lia.
Qed.

Lemma rcut_none_count (sep : ascii) (s : string) :
  rcut sep s = None → count_char sep s = 0%nat.
Proof.
  intros H. apply count_char_zero.
  destruct (occurs sep s) eqn:E; [|done].
  exfalso. induction s as [|c s IH]; simpl in *; [done |].
  destruct (rcut sep s) as [[]|]; [done |].
  destruct (Ascii.eqb_spec c sep) as [|Hne]; [done |].
  apply orb_true_iff in E as [E|E]; [|by apply IH].
  apply Ascii.eqb_eq in E. congruence.
Qed.

Lemma rsplit_length (sep : ascii) (maxsplit : nat) (s : string) :
  length (rsplit sep maxsplit s) = S (min (count_char sep s) maxsplit).
Proof.
  revert s. induction maxsplit as [|n IH]; intros s; simpl.
  - by rewrite Nat.min_0_r.
  - destruct (rcut sep s) as [[a b]|] eqn:E.
    + rewrite length_app, IH. simpl. rewrite (rcut_count _ _ _ _ E). simpl. lia.
    + by rewrite (rcut_none_count _ _ E).
Qed.

Lemma rsplit_dotted (run a b c : string) :
  occurs "." a = false → occurs "." b = false → occurs "." c = false →
  rsplit "." 3 (dotted run a b c) = [run; a; b; c].
Proof.
  intros Ha Hb Hc. unfold dotted, rsplit.
  replace (run +:+ "." +:+ a +:+ "." +:+ b +:+ "." +:+ c)
    with ((run +:+ "." +:+ a +:+ "." +:+ b) +:+ String "." c)
    by (by rewrite !app_assoc_s).
  rewrite (rcut_last _ _ _ Hc).
  replace (run +:+ "." +:+ a +:+ "." +:+ b)
    with ((run +:+ "." +:+ a) +:+ String "." b)
    by (by rewrite !app_assoc_s).
  rewrite (rcut_last _ _ _ Hb).
  replace (run +:+ "." +:+ a) with (run +:+ String "." a) by done.
  by rewrite (rcut_last _ _ _ Ha).
Qed.

Lemma py_int_raises (s : string) (e : exn) : py_int s = Raise e → e = ValueError.
Proof.
  unfold py_int.
  destruct (match strip s with String _ _ => _ | EmptyString => _ end); congruence.
Qed.

Lemma parse_spectrum_column_total (v : value) :
  ∃ r, parse_spectrum_column v = Ok r.
Proof.
  unfold parse_spectrum_column.
  destruct v as [|s| | |]; try (eexists; reflexivity).
  unfold value_rsplit. generalize (rsplit "." 3 s).
  intros [|p0 [|p1 [|p2 [|p3 ps]]]]; simpl; eauto.
  destruct (py_int p1) as [n|e] eqn:E1; simpl.
  - destruct (py_int p3) as [m|e] eqn:E3; simpl; eauto.
    apply py_int_raises in E3 as ->. simpl. eauto.
  - apply py_int_raises in E1 as ->. simpl. eauto.
Qed.

Lemma parse_spectrum_column_few (s : string) :
  (count_char "." s < 3)%nat → parse_spectrum_column (VStr s) = Ok (None, None, None).
Proof.
  intros H. unfold parse_spectrum_column, value_rsplit.
  assert (L := rsplit_length "." 3 s).
  destruct (rsplit "." 3 s) as [|p0 [|p1 [|p2 [|p3 ps]]]]; try done.
  simpl in L. lia.
Qed.

Lemma parse_spectrum_column_dotted (run a b c : string) :
  occurs "." a = false → occurs "." b = false → occurs "." c = false →
  parse_spectrum_column (VStr (dotted run a b c)) =
    match py_int a, py_int c with
    | Ok scan, Ok charge => Ok (Some run, Some scan, Some charge)
    | _, _ => Ok (None, None, None)
    end.
Proof.
  intros Ha Hb Hc. unfold parse_spectrum_column, value_rsplit.
  rewrite (rsplit_dotted _ _ _ _ Ha Hb Hc). simpl.
  destruct (py_int a) as [n|e] eqn:E1; simpl.
  - destruct (py_int c) as [m|e] eqn:E3; simpl; [done |].
    by apply py_int_raises in E3 as ->.
  - by apply py_int_raises in E1 as ->.
Qed.

(** ** Matching the folder patterns *)

Lemma drop_prefix_app (l t : string) : drop_prefix l (l +:+ t) = Some t.
Proof.
  induction l as [|c l IH]; [by destruct t |].
  rewrite app_cons. simpl. by rewrite Ascii.eqb_refl.
Qed.

Lemma greedy_digits_stop {R : Type} (k : string → string → option R) (t : string) :
  stops_digits t = true → greedy_digits k t = None.
Proof. destruct t as [|c t]; simpl; [done |]. by intros ->%negb_true_iff. Qed.

Lemma greedy_digits_run {R : Type} (k : string → string → option R)
    (d t : string) (r : R) :
  digit_run d → stops_digits t = true → k d t = Some r →
  greedy_digits k (d +:+ t) = Some r.
Proof.
  intros [Hd Hne]. revert k Hne. induction d as [|c d IH]; intros k Hne Ht Hk; [done |].
  simpl in Hd. apply andb_true_iff in Hd as [Hc Hd].
  rewrite app_cons. simpl. rewrite Hc.
  destruct d as [|c' d'].
  - rewrite app_nil, (greedy_digits_stop _ _ Ht). done.
  - rewrite (IH Hd (fun g rest => k (String c g) rest)); done.
Qed.

Lemma greedy_digits_sound {R : Type} (k : string → string → option R)
    (s : string) (r : R) :
  greedy_digits k s = Some r →
  ∃ d t, s = d +:+ t ∧ digit_run d ∧ k d t = Some r.
Proof.
  revert k. induction s as [|c s IH]; intros k; simpl; [done |].
  destruct (is_digit c) eqn:Hc; [|done].
  destruct (greedy_digits _ s) as [r'|] eqn:E.
  - intros [= ->]. apply IH in E as (d & t & -> & [Hd _] & Hk).
    exists (String c d), t. repeat split; try done. simpl. by rewrite Hc.
  - intros Hk. exists (String c ""), s. repeat split; try done. simpl. by rewrite Hc.
Qed.

Lemma re_match_lit (l : string) (p : list re_item) (t : string) :
  re_match (Lit l :: p) (l +:+ t) = re_match p t.
Proof. simpl. by rewrite drop_prefix_app. Qed.

Lemma re_match_digits (p : list re_item) (d t : string) (gs : list string) :
  digit_run d → stops_digits t = true → re_match p t = Some gs →
  re_match (Digits :: p) (d +:+ t) = Some (d :: gs).
Proof.
  intros Hd Ht Hp. simpl. apply greedy_digits_run; [done | done |].
  by rewrite Hp.
Qed.

Lemma re_match_groups (p : list re_item) (s : string) (gs : list string) :
  re_match p s = Some gs → Forall digit_run gs.
Proof.
  revert s gs. induction p as [|[l|] p IH]; intros s gs; simpl.
  - by intros [= <-].
  - destruct (drop_prefix l s); [apply IH | done].
  - intros (d & t & -> & Hd & Hk)%greedy_digits_sound.
    destruct (re_match p t) as [gs'|] eqn:E; [|done].
    injection Hk as <-. constructor; [done | by eapply IH].
Qed.

(** ** Numbers read from digit runs *)

Lemma is_digit_not_space (c : ascii) : is_digit c = true → py_isspace c = false.
Proof.
  unfold is_digit, py_isspace. generalize (N_of_ascii c). intros n H.
  apply andb_true_iff in H as [H1 H2].
  apply N.leb_le in H1, H2.
  repeat match goal with
         | |- context [(?a <=? ?b)%N] => destruct (N.leb_spec a b)
         | |- context [(?a =? ?b)%N] => destruct (N.eqb_spec a b)
         end; simpl; try done; lia.
Qed.

Lemma is_digit_neq (c d : ascii) :
  is_digit c = true → is_digit d = false → Ascii.eqb c d = false.
Proof. intros Hc Hd. apply Ascii.eqb_neq. intros ->. congruence. Qed.

Lemma rstrip_digits (d : string) : all_digits d = true → rstrip d = d.
Proof.
  induction d as [|c d IH]; simpl; [done |].
  intros [Hc Hd]%andb_true_iff. rewrite (IH Hd).
  destruct d; [by rewrite (is_digit_not_space _ Hc) | done].
Qed.

Lemma rstrip_app_nonempty (a b : string) :
  b ≠ EmptyString → rstrip b = b → rstrip (a +:+ b) = a +:+ b.
Proof.
  intros Hne Hb. induction a as [|c a IH]; [done |].
  rewrite app_cons. simpl. rewrite IH.
  destruct (a +:+ b) eqn:E; [|done].
  destruct a, b; done.
Qed.

Lemma strip_digit_run (d : string) : digit_run d → strip d = d.
Proof.
  intros [Hd Hne]. unfold strip.
  destruct d as [|c d]; [done |].
  simpl in Hd. apply andb_true_iff in Hd as [Hc Hd].
  simpl lstrip. rewrite (is_digit_not_space _ Hc).
  apply rstrip_digits. simpl. by rewrite Hc.
Qed.

Lemma int_digits_run (acc : Z) (b : bool) (d : string) :
  all_digits d = true → (d ≠ EmptyString ∨ b = true) →
  int_digits acc b d = Some (digits_value acc d).
Proof.
  revert acc b. induction d as [|c d IH]; intros acc b Hd Hb; simpl.
  - destruct Hb as [Hb|Hb]; [done | by rewrite Hb].
  - simpl in Hd. apply andb_true_iff in Hd as [Hc Hd].
    rewrite Hc. apply IH; auto.
Qed.

Lemma py_int_digit_run (d : string) :
  digit_run d → py_int d = Ok (digits_value 0 d).
Proof.
  intros Hd. unfold py_int. rewrite (strip_digit_run _ Hd).
  destruct Hd as [Hd Hne]. destruct d as [|c d]; [done |].
  assert (Hc : is_digit c = true) by (simpl in Hd; by apply andb_true_iff in Hd as [? _]).
  rewrite (is_digit_neq c "-"), (is_digit_neq c "+") by done.
  rewrite int_digits_run; auto.
Qed.

Lemma take_digits_run (d t : string) :
  all_digits d = true → stops_digits t = true → take_digits (d +:+ t) = (d, t).
Proof.
  intros Hd Ht. induction d as [|c d IH].
  - rewrite app_nil. destruct t as [|c t]; [done |].
    simpl in *. by apply negb_true_iff in Ht as ->.
  - simpl in Hd. apply andb_true_iff in Hd as [Hc Hd].
    rewrite app_cons. simpl. by rewrite Hc, (IH Hd).
Qed.

Lemma py_float_digit_run (d : string) :
  digit_run d → py_float d = Ok (Qmake (digits_value 0 d) 1).
Proof.
  intros Hd. unfold py_float. rewrite (strip_digit_run _ Hd).
  destruct Hd as [Hd Hne]. destruct d as [|c d]; [done |].
  assert (Hc : is_digit c = true) by (simpl in Hd; by apply andb_true_iff in Hd as [? _]).
  rewrite (is_digit_neq c "-"), (is_digit_neq c "+") by done.
  rewrite <- (app_empty_r (String c d)) at 1.
  rewrite take_digits_run by done.
  simpl is_empty. cbv iota. f_equal. f_equal. lia.
Qed.

Lemma py_float_decimal (ip fp : string) :
  digit_run ip → digit_run fp →
  py_float (ip +:+ "." +:+ fp) = Ok (decimal_value ip fp).
Proof.
  intros Hi Hf. unfold py_float, strip.
  destruct Hi as [Hi Hin], Hf as [Hf Hfn].
  destruct ip as [|c ip]; [done |].
  assert (Hc : is_digit c = true) by (simpl in Hi; by apply andb_true_iff in Hi as [? _]).
  rewrite app_cons. simpl lstrip. rewrite (is_digit_not_space _ Hc).
  rewrite <- app_cons.
  rewrite rstrip_app_nonempty.
  2:{ by destruct fp. }
  2:{ rewrite app_cons, app_nil. simpl. rewrite (rstrip_digits _ Hf). by destruct fp. }
  rewrite app_cons at 1.
  rewrite (is_digit_neq c "-"), (is_digit_neq c "+") by done.
  rewrite take_digits_run by done.
  rewrite app_cons, app_nil.
  rewrite <- (app_empty_r fp) at 1.
  rewrite take_digits_run by done.
  destruct fp as [|c' fp]; [done |].
  simpl is_empty. simpl negb. cbv iota.
  unfold decimal_value. f_equal. f_equal. lia.
Qed.

Lemma parse_folder_name_total (folder_name : string) :
  ∃ r, parse_folder_name folder_name = Ok r.
Proof.
  unfold parse_folder_name.
  destruct (re_match decimal_pattern folder_name)
    as [[|g1 [|g2 [|g3 [|g4 [|g5 [|g6 gs]]]]]]|] eqn:E1.
  all: try (apply re_match_groups in E1;
            repeat match goal with H : Forall _ (_ :: _) |- _ => inversion H; subst; clear H end).
  all: try (rewrite py_float_decimal, py_int_digit_run by done; simpl; by eauto).
  all: destruct (re_match integer_pattern folder_name)
    as [[|h1 [|h2 [|h3 [|h4 [|h5 hs]]]]]|] eqn:E2; eauto.
  all: apply re_match_groups in E2;
       repeat match goal with H : Forall _ (_ :: _) |- _ => inversion H; subst; clear H end.
  all: rewrite py_float_digit_run, py_int_digit_run by done; simpl; by eauto.
Qed.

Lemma parse_folder_name_decimal (a b c d r t : string) :
  digit_run a → digit_run b → digit_run c → digit_run d → digit_run r →
  stops_digits t = true →
  parse_folder_name (a +:+ "_" +:+ b +:+ "_" +:+ c +:+ "_" +:+ d +:+ "mz_" +:+ r +:+ t)
  = Ok (Some (decimal_value c d), Some (digits_value 0 r)).
Proof.
  intros Ha Hb Hc Hd Hr Ht. unfold parse_folder_name, decimal_pattern.
  rewrite (re_match_digits _ a _ [b; c; d; r]); try done.
  - rewrite py_float_decimal, py_int_digit_run by done. done.
  - rewrite re_match_lit.
    rewrite (re_match_digits _ b _ [c; d; r]); try done.
    rewrite re_match_lit.
    rewrite (re_match_digits _ c _ [d; r]); try done.
    rewrite re_match_lit.
    rewrite (re_match_digits _ d _ [r]); try done.
    rewrite re_match_lit.
    rewrite (re_match_digits _ r _ []); done.
Qed.

Lemma greedy_digits_det {R : Type} (k : string → string → option R) (d t : string) :
  all_digits d = true → stops_digits t = true →
  (∀ g rest, stops_digits rest = false → k g rest = None) →
  greedy_digits k (d +:+ t) = if is_empty d then None else k d t.
Proof.
  intros Hd Ht. revert k. induction d as [|c d IH]; intros k Hk.
  - rewrite app_nil. by apply greedy_digits_stop.
  - simpl in Hd. apply andb_true_iff in Hd as [Hc Hd].
    rewrite app_cons. simpl. rewrite Hc.
    rewrite (IH Hd) by (intros; by apply Hk).
    destruct d as [|c' d]; [done |].
    simpl is_empty. cbv iota.
    destruct (k (String c (String c' d)) t); [done |].
    apply Hk. rewrite app_cons. simpl.
    simpl in Hd. apply andb_true_iff in Hd as [-> _]. done.
Qed.

Lemma drop_prefix_digit (c : ascii) (l rest : string) :
  is_digit c = false → stops_digits rest = false → drop_prefix (String c l) rest = None.
Proof.
  intros Hc Hr. destruct rest as [|x rest]; [done |].
  simpl in *. apply negb_false_iff in Hr.
  by rewrite Ascii.eqb_sym, (is_digit_neq x c).
Qed.

Lemma re_match_lit_unfold (l : string) (p : list re_item) (s : string) :
  re_match (Lit l :: p) s
  = match drop_prefix l s with Some s' => re_match p s' | None => None end.
Proof. reflexivity. Qed.

Lemma re_match_digits_lit (c : ascii) (l : string) (p : list re_item) (d t : string) :
  is_digit c = false → digit_run d → stops_digits t = true →
  re_match (Digits :: Lit (String c l) :: p) (d +:+ t)
  = cons d <$> re_match (Lit (String c l) :: p) t.
Proof.
  intros Hc [Hd Hne] Ht.
  change (re_match (Digits :: Lit (String c l) :: p) (d +:+ t))
    with (greedy_digits
            (fun g rest => option_map (cons g) (re_match (Lit (String c l) :: p) rest))
            (d +:+ t)).
  rewrite greedy_digits_det; try done.
  - by destruct d.
  - intros g rest Hr. by rewrite re_match_lit_unfold, drop_prefix_digit.
Qed.

Lemma parse_folder_name_integer (a b c r t : string) :
  digit_run a → digit_run b → digit_run c → digit_run r →
  stops_digits t = true →
  parse_folder_name (a +:+ "_" +:+ b +:+ "_" +:+ c +:+ "mz_" +:+ r +:+ t)
  = Ok (Some (Qmake (digits_value 0 c) 1), Some (digits_value 0 r)).
Proof.
  intros Ha Hb Hc Hr Ht. unfold parse_folder_name.
  assert (E1 : re_match decimal_pattern
                 (a +:+ "_" +:+ b +:+ "_" +:+ c +:+ "mz_" +:+ r +:+ t) = None).
  { unfold decimal_pattern.
    rewrite re_match_digits_lit, re_match_lit by done.
    rewrite re_match_digits_lit, re_match_lit by done.
    rewrite re_match_digits_lit by done. done. }
  rewrite E1. unfold integer_pattern.
  rewrite re_match_digits_lit, re_match_lit by done.
  rewrite re_match_digits_lit, re_match_lit by done.
  rewrite re_match_digits_lit, re_match_lit by done.
  rewrite (re_match_digits _ r _ []) by done.
  simpl. rewrite py_float_digit_run, py_int_digit_run by done. done.
Qed.

Lemma parse_folder_name_decimal_first (folder_name g1 g2 g3 g4 g5 : string) :
  re_match decimal_pattern folder_name = Some [g1; g2; g3; g4; g5] →
  parse_folder_name folder_name = Ok (Some (decimal_value g3 g4), Some (digits_value 0 g5)).
Proof.
  intros E. unfold parse_folder_name. rewrite E.
  apply re_match_groups in E.
  repeat match goal with H : Forall _ (_ :: _) |- _ => inversion H; subst; clear H end.
  rewrite py_float_decimal, py_int_digit_run by done. done.
Qed.

(** ** Data frames *)

Lemma mapM_total {A B : Type} (f : A → result B) (g : A → B) (l : list A) :
  (∀ a, a ∈ l → f a = Ok (g a)) → mapM f l = Ok (g <$> l).
Proof.
  induction l as [|a l IH]; intros H; simpl; [done |].
  rewrite (H a) by left. simpl.
  rewrite IH by (intros; apply H; by right). done.
Qed.

Lemma parse_spectrum_column_parsed_of (v : value) :
  parse_spectrum_column v = Ok (parsed_of v).
Proof.
  unfold parsed_of. by destruct (parse_spectrum_column_total v) as [r ->].
Qed.

Lemma elem_of_add_name (cols : list string) (c x : string) :
  x ∈ add_name cols c ↔ x ∈ cols ∨ x = c.
Proof.
  unfold add_name. case_bool_decide as H.
  - split; [by left | intros [Hx|Hx]; by subst].
  - rewrite elem_of_app, list_elem_of_singleton. done.
Qed.

Lemma zip_with_fmap_both {A B C D : Type} (f : B → C → D) (u : A → B) (v : A → C)
    (l : list A) :
  zip_with f (u <$> l) (v <$> l) = (fun x => f (u x) (v x)) <$> l.
Proof. induction l as [|x l IH]; csimpl; [done | by f_equal]. Qed.

Lemma set_column_fmap {A : Type} (c : string) (v : A → value)
    (u : A → gmap string value) (cols : list string) (l : list A) :
  set_column c (v <$> l) (mkFrame cols (u <$> l))
  = Ok (mkFrame (add_name cols c) ((fun x => <[c := v x]> (u x)) <$> l)).
Proof.
  unfold set_column. simpl. rewrite !length_fmap, Nat.eqb_refl.
  by rewrite zip_with_fmap_both.
Qed.

Lemma getitem_fmap {A : Type} (c : string) (u : A → gmap string value)
    (cols : list string) (l : list A) :
  c ∈ cols →
  getitem (mkFrame cols (u <$> l)) c = Ok ((fun x => cell (u x) c) <$> l).
Proof.
  intros H. unfold getitem, has_column. simpl.
  rewrite bool_decide_true by done. by rewrite <- list_fmap_compose.
Qed.

Section LoaderFacts.

Variable read_csv : Path → result DataFrame.

Lemma load_body_rows (psm_file : Path) (folder_name : string) (df : DataFrame)
    (window_mz : option Q) (replicate : option Z) :
  read_csv psm_file = Ok df → rows df ≠ [] → "Spectrum" ∈ columns df →
  parse_folder_name folder_name = Ok (window_mz, replicate) →
  load_body read_csv psm_file folder_name
  = Ok (Some (mkFrame (loaded_columns (columns df))
                      (loaded_row folder_name window_mz replicate <$> rows df))).
Proof.
  intros Hread Hne Hcol Hfolder. unfold load_body.
  rewrite Hread. simpl.
  destruct df as [cols rs]. simpl in *.
  destruct rs as [|r0 rs0] eqn:Ers; [done |]. rewrite <- Ers. clear Hne.
  replace (length rs =? 0)%nat with false by (by rewrite Ers).
  rewrite Hfolder. simpl.
  unfold set_scalar. simpl. rewrite <- !list_fmap_compose.
  rewrite getitem_fmap.
  2:{ rewrite !elem_of_add_name. auto. }
  simpl.
  rewrite (mapM_total _ parsed_of) by (intros; apply parse_spectrum_column_parsed_of).
  simpl. rewrite <- !list_fmap_compose.
  rewrite set_column_fmap. simpl.
  rewrite set_column_fmap. simpl.
  rewrite set_column_fmap. simpl.
  rewrite <- list_fmap_compose.
  rewrite set_column_fmap. simpl.
  reflexivity.
Qed.

Lemma load_body_no_spectrum (psm_file : Path) (folder_name : string)
    (df : DataFrame) :
  read_csv psm_file = Ok df → rows df ≠ [] → "Spectrum" ∉ columns df →
  load_body read_csv psm_file folder_name = Raise KeyError.
Proof.
  intros Hread Hne Hcol. unfold load_body. rewrite Hread. simpl.
  destruct (rows df) as [|r0 rs0] eqn:Ers; [done |]. simpl.
  destruct (parse_folder_name_total folder_name) as [[w rep] ->]. simpl.
  unfold getitem, has_column. simpl.
  rewrite bool_decide_false; [done |].
  rewrite !elem_of_add_name. intros [[[?|?]|?]|?]; done.
Qed.

Lemma load_single_psm_file_lib (psm_file : Path) :
  name (parent psm_file) = "lib" → load_single_psm_file read_csv psm_file = None.
Proof. intros H. unfold load_single_psm_file. by rewrite H. Qed.

Lemma load_single_psm_file_ok (psm_file : Path) (df : DataFrame) :
  name (parent psm_file) ≠ "lib" →
  read_csv psm_file = Ok df → rows df ≠ [] → "Spectrum" ∈ columns df →
  ∃ window_mz replicate,
    parse_folder_name (name (parent psm_file)) = Ok (window_mz, replicate) ∧
    load_single_psm_file read_csv psm_file
    = Some (mkFrame (loaded_columns (columns df))
              (loaded_row (name (parent psm_file)) window_mz replicate <$> rows df)).
Proof.
  intros Hlib Hread Hne Hcol.
  destruct (parse_folder_name_total (name (parent psm_file))) as [[w rep] Hf].
  exists w, rep. split; [done |].
  unfold load_single_psm_file.
  apply String.eqb_neq in Hlib. rewrite Hlib.
  by rewrite (load_body_rows _ _ _ _ _ Hread Hne Hcol Hf).
Qed.

Lemma load_single_psm_file_inv (psm_file : Path) (df' : DataFrame) :
  load_single_psm_file read_csv psm_file = Some df' →
  ∃ df window_mz replicate,
    name (parent psm_file) ≠ "lib" ∧
    read_csv psm_file = Ok df ∧ rows df ≠ [] ∧ "Spectrum" ∈ columns df ∧
    parse_folder_name (name (parent psm_file)) = Ok (window_mz, replicate) ∧
    df' = mkFrame (loaded_columns (columns df))
            (loaded_row (name (parent psm_file)) window_mz replicate <$> rows df).
Proof.
  intros H.
  destruct (decide (name (parent psm_file) = "lib")) as [Hlib|Hlib].
  { by rewrite load_single_psm_file_lib in H. }
  destruct (read_csv psm_file) as [df|e] eqn:Hread.
  2:{ unfold load_single_psm_file, load_body in H. rewrite Hread in H. simpl in H.
      by destruct (String.eqb _ _). }
  destruct (decide (rows df = [])) as [Hnil|Hne].
  { unfold load_single_psm_file, load_body in H. rewrite Hread in H.
    unfold rbind at 1 in H. rewrite Hnil in H. simpl in H.
    by destruct (String.eqb _ _). }
  destruct (decide ("Spectrum" ∈ columns df)) as [Hcol|Hcol].
  2:{ unfold load_single_psm_file in H.
      rewrite (load_body_no_spectrum _ _ _ Hread Hne Hcol) in H.
      by destruct (String.eqb _ _). }
  destruct (load_single_psm_file_ok _ _ Hlib Hread Hne Hcol) as (w & rep & Hf & E).
  rewrite E in H. injection H as <-.
  exists df, w, rep. done.
Qed.

End LoaderFacts.



Lemma loaded_row_source_folder (folder_name : string) (window_mz : option Q)
    (replicate : option Z) (r : gmap string value) :
  loaded_row folder_name window_mz replicate r !! "source_folder"
  = Some (VStr folder_name).
Proof. unfold loaded_row. by simplify_map_eq. Qed.


(** ** Chimericity *)

Lemma groupby_size_lookup (keys : list value) (k : value) :
  groupby_size keys !! k =
    let n := length (filter (fun x => x = k) keys) in
    if notna k && (0 <? n)%nat then Some n else None.
Proof.
  induction keys as [|x keys IH]; simpl in *.
  - rewrite lookup_empty. by rewrite andb_false_r.
  - destruct (decide (x = k)) as [->|Hne].
    + rewrite filter_cons_True by done. simpl.
      destruct (notna k) eqn:Hk; simpl in *.
      * rewrite lookup_insert_eq, IH.
        by destruct (length (filter (fun x => x = k) keys)).
      * by rewrite IH.
    + rewrite filter_cons_False by done.
      destruct (notna x); [by rewrite lookup_insert_ne | done].
Qed.

Lemma map_counts_groupby (keys : list value) (k : value) :
  k ∈ keys →
  map_counts (groupby_size keys) k =
    if notna k then VInt (Z.of_nat (length (filter (fun x => x = k) keys))) else VNone.
Proof.
  intros Hin. unfold map_counts. rewrite groupby_size_lookup. simpl.
  destruct (notna k); [|done]. simpl.
  destruct (filter (fun x => x = k) keys) as [|y l] eqn:E; [|done].
  exfalso. by eapply (filter_nil_not_elem_of (fun x => x = k)).
Qed.

Lemma filter_fmap_length {A B : Type} (f : A → B) (P : B → Prop)
    `{!∀ x, Decision (P x)} (l : list A) :
  length (filter P (f <$> l)) = length (filter (fun a => P (f a)) l).
Proof.
  induction l as [|a l IH]; csimpl; [done |].
  rewrite !filter_cons. destruct (decide (P (f a))); simpl; by rewrite IH.
Qed.

Lemma mapM_fmap {A B C : Type} (f : B → result C) (g : A → B) (l : list A) :
  mapM f (g <$> l) = mapM (fun a => f (g a)) l.
Proof. induction l as [|a l IH]; csimpl; [done | by rewrite IH]. Qed.

Lemma ge_int_map_counts (counts : gmap value nat) (k : value) :
  ge_int (map_counts counts k) 2 =
    Ok (VBool match map_counts counts k with VInt m => 2 <=? m | _ => false end).
Proof.
  unfold map_counts. destruct (counts !! k); [|done]. by destruct (notna k).
Qed.

Lemma add_derived_columns_rows (df : DataFrame) :
  "spectrum_key" ∈ columns df →
  add_derived_columns df =
    Ok (mkFrame (add_name (add_name (columns df) "n_psm") "is_chimeric")
          (annotated_row
             (groupby_size ((fun r => cell r "spectrum_key") <$> rows df))
           <$> rows df)).
Proof.
  intros Hcol. unfold add_derived_columns.
  destruct df as [cols rs]. simpl in *.
  rewrite <- (list_fmap_id rs) at 1.
  rewrite getitem_fmap by done. simpl.
  set (counts := groupby_size _).
  rewrite <- list_fmap_compose.
  rewrite <- (list_fmap_id rs) at 2.
  rewrite set_column_fmap. simpl.
  rewrite getitem_fmap by (rewrite elem_of_add_name; auto). simpl.
  rewrite mapM_fmap.
  rewrite (mapM_total _ (fun r : gmap string value =>
             VBool match map_counts counts (cell r "spectrum_key") with
                   | VInt m => 2 <=? m | _ => false end)).
  2:{ intros r _. unfold cell at 1. rewrite lookup_insert_eq. simpl.
      apply ge_int_map_counts. }
  simpl. rewrite set_column_fmap. done.
Qed.

Lemma add_derived_columns_inv (df df' : DataFrame) :
  add_derived_columns df = Ok df' →
  "spectrum_key" ∈ columns df ∧
  rows df' = annotated_row
               (groupby_size ((fun r => cell r "spectrum_key") <$> rows df))
             <$> rows df.
Proof.
  intros H. destruct (decide ("spectrum_key" ∈ columns df)) as [Hcol|Hcol].
  - rewrite (add_derived_columns_rows _ Hcol) in H. injection H as <-. done.
  - unfold add_derived_columns, getitem, has_column in H.
    by rewrite bool_decide_false in H.
Qed.

Lemma annotated_row_key (counts : gmap value nat) (r : gmap string value) :
  cell (annotated_row counts r) "spectrum_key" = cell r "spectrum_key".
Proof. unfold annotated_row, cell. by simplify_map_eq. Qed.

Lemma records_sharing_annotated (counts : gmap value nat) (cols cols' : list string)
    (rs : list (gmap string value)) (k : value) :
  records_sharing k (mkFrame cols' (annotated_row counts <$> rs))
  = records_sharing k (mkFrame cols rs).
Proof.
  unfold records_sharing. simpl.
  rewrite filter_fmap_length.
  f_equal. apply list_filter_iff. intros r. by rewrite annotated_row_key.
Qed.

Lemma annotated_row_count (df : DataFrame) (r : gmap string value) :
  r ∈ rows df →
  let counts := groupby_size ((fun r => cell r "spectrum_key") <$> rows df) in
  let k := cell r "spectrum_key" in
  map_counts counts k =
    if notna k then VInt (Z.of_nat (records_sharing k df)) else VNone.
Proof.
  intros Hr. simpl. rewrite map_counts_groupby.
  2:{ apply list_elem_of_fmap. eauto. }
  destruct (notna _); [|done]. f_equal. f_equal. unfold records_sharing.
  by rewrite filter_fmap_length.
Qed.

(** ** Order of the input files *)

Lemma groupby_size_permutation (keys keys' : list value) :
  keys ≡ₚ keys' → groupby_size keys = groupby_size keys'.
Proof.
  intros H. apply map_eq. intros k. rewrite !groupby_size_lookup. simpl.
  assert (E : length (filter (fun x => x = k) keys)
            = length (filter (fun x => x = k) keys')) by (by rewrite H).
  by rewrite E.
Qed.

Lemma elem_of_foldl_add_name (cols acc : list string) (c : string) :
  c ∈ foldl add_name acc cols ↔ c ∈ acc ∨ c ∈ cols.
Proof.
  revert acc. induction cols as [|x cols IH]; intros acc; simpl.
  - rewrite elem_of_nil. tauto.
  - rewrite IH, elem_of_add_name, elem_of_cons. intuition.
Qed.

Lemma elem_of_concat_columns (dfs : list DataFrame) (acc : list string) (c : string) :
  c ∈ foldl (fun acc df => foldl add_name acc (columns df)) acc dfs
  ↔ c ∈ acc ∨ ∃ df, df ∈ dfs ∧ c ∈ columns df.
Proof.
  revert acc. induction dfs as [|d dfs IH]; intros acc; simpl.
  - split; [by left | intros [|(? & []%elem_of_nil & _)]; done].
  - rewrite IH, elem_of_foldl_add_name. split.
    + intros [[|]|(df & ? & ?)]; [by left | right; exists d | right; exists df].
      * split; [left | done].
      * split; [by right | done].
    + intros [|(df & [->|]%elem_of_cons & ?)]; [by left; left | by left; right |].
      right. by exists df.
Qed.

Lemma pd_concat_permutation (dfs dfs' : list DataFrame) :
  dfs ≡ₚ dfs' → same_table (pd_concat dfs) (pd_concat dfs').
Proof.
  intros H. unfold pd_concat.
  destruct dfs as [|d dfs], dfs' as [|d' dfs'].
  - done.
  - by apply Permutation_nil_cons in H.
  - symmetry in H. by apply Permutation_nil_cons in H.
  - simpl. split; [|split].
    + change (length (mjoin (rows <$> d :: dfs)) = length (mjoin (rows <$> d' :: dfs'))).
      by rewrite H.
    + change (mjoin (rows <$> d :: dfs) ≡ₚ mjoin (rows <$> d' :: dfs')).
      by rewrite H.
    + intros c.
      change (c ∈ foldl (fun acc df => foldl add_name acc (columns df)) [] (d :: dfs)
              ↔ c ∈ foldl (fun acc df => foldl add_name acc (columns df)) [] (d' :: dfs')).
      rewrite !elem_of_concat_columns.
      split; (intros [[]%elem_of_nil|(df & Hdf & Hc)]); right; exists df; split; try done.
      * by rewrite <- H.
      * by rewrite H.
Qed.

Lemma load_all_permutation (read_csv : Path → result DataFrame)
    (psm_files psm_files' : list Path) :
  psm_files ≡ₚ psm_files' →
  same_table (load_all read_csv psm_files) (load_all read_csv psm_files').
Proof.
  intros H. unfold load_all. apply pd_concat_permutation. by rewrite H.
Qed.

Lemma add_derived_columns_permutation (d d' : DataFrame) :
  same_table (Ok d) (Ok d') →
  same_table (add_derived_columns d) (add_derived_columns d').
Proof.
  intros (Hlen & Hrows & Hcols).
  destruct (decide ("spectrum_key" ∈ columns d)) as [Hc|Hc].
  - rewrite (add_derived_columns_rows d Hc).
    rewrite (add_derived_columns_rows d') by (by apply Hcols).
    simpl. rewrite !length_fmap. split; [done |]. split.
    + rewrite (groupby_size_permutation _ ((fun r => cell r "spectrum_key") <$> rows d'))
        by (by rewrite Hrows).
      by rewrite Hrows.
    + intros c. rewrite !elem_of_add_name, Hcols. done.
  - unfold add_derived_columns, getitem, has_column.
    rewrite !bool_decide_false; [done | by rewrite <- Hcols | done].
Qed.

(** ** Paths and the library folder *)

Lemma last_elem_of {A : Type} (l : list A) (d : A) :
  List.last l d ≠ d → List.last l d ∈ l.
Proof.
  induction l as [|x [|y l] IH]; simpl in *; intros H.
  - done.
  - left.
  - right. by apply IH.
Qed.

Lemma removelast_elem_of {A : Type} (l : list A) (x : A) :
  x ∈ removelast l → x ∈ l.
Proof.
  induction l as [|y [|z l] IH]; simpl in *; intros H.
  - done.
  - by apply elem_of_nil in H.
  - apply elem_of_cons in H as [->|H]; [left | right; by apply IH].
Qed.

Lemma lib_folder_in_parts (p : Path) :
  name (parent p) = "lib" → "lib" ∈ parts p.
Proof.
  unfold name, parent, parts. simpl. intros H.
  apply elem_of_app. right. apply removelast_elem_of.
  rewrite <- H. apply last_elem_of. by rewrite H.
Qed.

Lemma not_in_lib_folder (p : Path) :
  name (parent p) = "lib" → not_in_lib p = false.
Proof.
  intros H. unfold not_in_lib.
  by rewrite bool_decide_true by (by apply lib_folder_in_parts).
Qed.

(** ** Provenance of the rows *)

Lemma load_single_psm_file_source (read_csv : Path → result DataFrame)
    (psm_file : Path) (df : DataFrame) (r : gmap string value) :
  load_single_psm_file read_csv psm_file = Some df → r ∈ rows df →
  r !! "source_folder" = Some (VStr (name (parent psm_file))) ∧
  name (parent psm_file) ≠ "lib".
Proof.
  intros (df0 & w & rep & Hlib & _ & _ & _ & _ & ->)%load_single_psm_file_inv Hr.
  simpl in Hr. apply list_elem_of_fmap in Hr as (r0 & -> & _).
  by rewrite loaded_row_source_folder.
Qed.

Lemma load_all_rows (read_csv : Path → result DataFrame) (psm_files : list Path)
    (df_all : DataFrame) (r : gmap string value) :
  load_all read_csv psm_files = Ok df_all → r ∈ rows df_all →
  ∃ psm_file df,
    psm_file ∈ psm_files ∧
    load_single_psm_file read_csv psm_file = Some df ∧ r ∈ rows df.
Proof.
  unfold load_all, pd_concat.
  destruct (omap id (load_single_psm_file read_csv <$> psm_files)) as [|d ds] eqn:E;
    [done |].
  intros [= <-] Hr. change (r ∈ mjoin (rows <$> d :: ds)) in Hr. rewrite <- E in Hr. clear E.
  apply list_elem_of_join in Hr as (rs & Hr & (df & -> & Hdf)%list_elem_of_fmap).
  apply list_elem_of_omap in Hdf as (o & (f & -> & Hf)%list_elem_of_fmap & Ho).
  simpl in Ho. eauto.
Qed.

Lemma load_all_ext (read_csv read_csv' : Path → result DataFrame)
    (psm_files : list Path) :
  (∀ f, f ∈ psm_files →
        load_single_psm_file read_csv' f = load_single_psm_file read_csv f) →
  load_all read_csv' psm_files = load_all read_csv psm_files.
Proof.
  intros H. unfold load_all. f_equal. f_equal.
  apply list_fmap_ext. intros i f Hf. apply H. by eapply list_elem_of_lookup_2.
Qed.

(** ** The control flow of [main] *)

Section MainFacts.

Variable read_csv : Path → result DataFrame.
Variable path_exists : Path → bool.
Variable rglob : Path → string → list Path.
Variable path_of_str : string → Path.
Variable detected_project_dir : Path.
Variable cpu_count : Z.

Lemma initial_config_not_given (args : Args) :
  given (arg_psm_dir args) = None →
  psm_dir (initial_config path_of_str detected_project_dir cpu_count args) = None.
Proof.
  intros H. unfold initial_config. rewrite H.
  by destruct (given (arg_mzml_dir args)).
Qed.

Lemma main_cannot_locate (args : Args) :
  let config := initial_config path_of_str detected_project_dir cpu_count args in
  match psm_dir config with
  | Some dir => path_exists dir = false
  | None => find_psm_directory path_exists rglob config = None
            ∨ ∃ dir, find_psm_directory path_exists rglob config = Some dir
                     ∧ path_exists dir = false
  end →
  let run := main read_csv path_exists rglob path_of_str detected_project_dir
               cpu_count args in
  run.2 = Exit 1 ∧
  (∃ out, run.1 = out ++ error_report) ∧
  forallb is_print run.1 = true.
Proof.
  simpl. unfold main.
  set (config := initial_config _ _ _ args).
  assert (Hb : forallb is_print (banner config ++ error_report) = true).
  { unfold banner. by destruct (mzml_dir config). }
  destruct (psm_dir config) as [dir|] eqn:Hdir.
  - intros Hex. rewrite Hdir, Hex. eauto.
  - intros [Hfind|(dir & Hfind & Hex)]; rewrite Hfind; cbn [with_psm_dir psm_dir].
    + eauto.
    + rewrite Hex. eauto.
Qed.

Lemma main_load_ext (read_csv' : Path → result DataFrame) (args : Args)
    (config : Config) (dir : Path) :
  (∀ f, load_single_psm_file read_csv' f = load_single_psm_file read_csv f) →
  main_load read_csv' rglob args config dir = main_load read_csv rglob args config dir.
Proof.
  intros H. unfold main_load.
  by rewrite (load_all_ext read_csv read_csv') by (intros; apply H).
Qed.

Lemma main_ext (read_csv' : Path → result DataFrame) (args : Args) :
  (∀ f, load_single_psm_file read_csv' f = load_single_psm_file read_csv f) →
  main read_csv' path_exists rglob path_of_str detected_project_dir cpu_count args
  = main read_csv path_exists rglob path_of_str detected_project_dir cpu_count args.
Proof.
  intros H. unfold main.
  destruct (psm_dir _) as [dir|]; [|done].
  destruct (path_exists dir); [|done].
  by rewrite (main_load_ext _ _ _ _ H).
Qed.

End MainFacts.

(** ** Joining the segments back *)

Lemma rsplit_nonempty (sep : ascii) (n : nat) (s : string) : rsplit sep n s ≠ [].
Proof.
  intros H. assert (L := rsplit_length sep n s). rewrite H in L. done.
Qed.

Lemma concat_snoc (sep : string) (l : list string) (b : string) :
  l ≠ [] → String.concat sep (l ++ [b]) = String.concat sep l +:+ sep +:+ b.
Proof.
  induction l as [|x [|y l] IH]; intros Hne; [done | done |].
  change (String.concat sep ((x :: y :: l) ++ [b]))
    with (x +:+ sep +:+ String.concat sep ((y :: l) ++ [b])).
  rewrite IH by done.
  change (String.concat sep (x :: y :: l))
    with (x +:+ sep +:+ String.concat sep (y :: l)).
  by rewrite !app_assoc_s.
Qed.

Lemma rsplit_concat (sep : ascii) (n : nat) (s : string) :
  String.concat (String sep "") (rsplit sep n s) = s.
Proof.
  revert s. induction n as [|n IH]; intros s; simpl; [done |].
  destruct (rcut sep s) as [[a b]|] eqn:E; [|done].
  apply rcut_spec in E as [-> _].
  rewrite concat_snoc by apply rsplit_nonempty. by rewrite IH.
Qed.

(** * The properties of the design note *)

(** C1 — Spectrum-key uniqueness: two records whose (run name, scan number)
    pairs differ get different keys from [create_spectrum_key]; in particular
    the same scan number in two different runs gives two different keys. *)
Theorem C1_spectrum_key_unique (run1 run2 : string) (scan1 scan2 : Z) :
  ((run1, scan1) ≠ (run2, scan2) →
   create_spectrum_key run1 scan1 ≠ create_spectrum_key run2 scan2) ∧
  (run1 ≠ run2 →
   create_spectrum_key run1 scan1 ≠ create_spectrum_key run2 scan1).
Proof.
  split.
  - intros Hne Hkey. apply Hne.
    by destruct (create_spectrum_key_inj _ _ _ _ Hkey) as [-> ->].
  - intros Hne Hkey. apply Hne.
    by destruct (create_spectrum_key_inj _ _ _ _ Hkey) as [-> _].
Qed.

Lemma C1_witness :
  create_spectrum_key "RunA" 988 ≠ create_spectrum_key "RunB" 988 ∧
  create_spectrum_key "RunA" 988 ≠ create_spectrum_key "RunA" 989.
Proof.
  split.
  - apply (C1_spectrum_key_unique "RunA" "RunB" 988 988). discriminate.
  - apply (C1_spectrum_key_unique "RunA" "RunA" 988 989). discriminate.
Defined.

(** The same at the level of rows: the key column of two rows with parsed
    run names and scan numbers differs as soon as the pairs differ. *)
Corollary key_of_row_unique (r1 r2 : gmap string value)
    (run1 run2 : string) (scan1 scan2 : Z) :
  cell r1 "mzml_name" = VStr run1 → cell r1 "scan_number" = VInt scan1 →
  cell r2 "mzml_name" = VStr run2 → cell r2 "scan_number" = VInt scan2 →
  (run1, scan1) ≠ (run2, scan2) →
  key_of_row r1 ≠ key_of_row r2.
Proof.
  intros E1 E2 E3 E4 Hne. unfold key_of_row. rewrite E1, E2, E3, E4. simpl.
  intros [= Hkey]. apply Hne.
  by destruct (create_spectrum_key_inj _ _ _ _ Hkey) as [-> ->].
Qed.



(** C3 — Spectrum-identifier parsing: [parse_spectrum_column] never raises;
    it splits from the right into at most 4 dot-delimited segments; for an
    identifier [run.a.b.c] whose three trailing segments hold no dot (the run
    name may) it returns the run name, [int(a)] as the scan number and
    [int(c)] as the charge; "RunA.00988.00988.2" gives ("RunA", 988, 2); an
    input with fewer than 4 dot-segments, such as "bad_identifier", gives
    all three fields absent. *)
Theorem C3_parse_spectrum_column :
  (∀ v, ∃ r, parse_spectrum_column v = Ok r) ∧
  (∀ s, (length (rsplit "." 3 s) ≤ 4)%nat ∧
        String.concat "." (rsplit "." 3 s) = s) ∧
  (∀ run a b c,
     occurs "." a = false → occurs "." b = false → occurs "." c = false →
     rsplit "." 3 (dotted run a b c) = [run; a; b; c] ∧
     ∀ scan charge, py_int a = Ok scan → py_int c = Ok charge →
       parse_spectrum_column (VStr (dotted run a b c))
       = Ok (Some run, Some scan, Some charge)) ∧
  parse_spectrum_column (VStr "RunA.00988.00988.2")
  = Ok (Some "RunA", Some 988, Some 2) ∧
  (∀ s, (count_char "." s < 3)%nat →
        parse_spectrum_column (VStr s) = Ok (None, None, None)) ∧
  parse_spectrum_column (VStr "bad_identifier") = Ok (None, None, None).
Proof.
  split; [apply parse_spectrum_column_total |].
  split.
  { intros s. split; [|apply rsplit_concat]. rewrite rsplit_length. lia. }
  split.
  { intros run a b c Ha Hb Hc. split; [by apply rsplit_dotted |].
    intros scan charge Hscan Hcharge.
    by rewrite parse_spectrum_column_dotted, Hscan, Hcharge by done. }
  split; [reflexivity |].
  split; [apply parse_spectrum_column_few | reflexivity].
Qed.

Lemma C3_witness :
  parse_spectrum_column (VStr (dotted "Ex.AuLC1.4mz_2" "00988" "00988" "2"))
  = Ok (Some "Ex.AuLC1.4mz_2", Some 988, Some 2) ∧
  parse_spectrum_column (VStr "Run.988.2") = Ok (None, None, None).
Proof.
  destruct C3_parse_spectrum_column as (_ & _ & Hdotted & _ & Hfew & _).
  split.
  - apply (Hdotted "Ex.AuLC1.4mz_2" "00988" "00988" "2"); reflexivity.
  - apply (Hfew "Run.988.2"). vm_compute. lia.
Defined.

(** C4 (as stated) fails: the name "118_60_1_6_1mz" matches neither pattern,
    so no window is read from it. *)
Lemma C4_counterexample :
  parse_folder_name "118_60_1_6_1mz" = Ok (None, None) ∧
  ¬ ∃ window replicate,
      parse_folder_name "118_60_1_6_1mz" = Ok (Some window, replicate) ∧
      (window == 16 # 10)%Q.
Proof.
  split; [reflexivity |].
  intros (window & replicate & H & _). vm_compute in H. discriminate H.
Qed.

(** C4 — Folder metadata parsing, amended: the decimal-style name
    "118_60_1_6mz_1" yields window 1.6 (and replicate 1), the integer-style
    name "86_45_24mz_2" yields window 24.0 and replicate 2, and
    "118_60_1_6_1mz" yields both fields absent. For any digit runs, a name
    [a_b_c_dmz_r] reads as window [c.d] and a name [a_b_cmz_r] as window [c],
    whatever the magnitudes; the decimal pattern is tried first, and its
    reading is the result whenever it matches. *)
Theorem C4_parse_folder_name :
  parse_folder_name "118_60_1_6mz_1" = Ok (Some (16 # 10)%Q, Some 1) ∧
  parse_folder_name "86_45_24mz_2" = Ok (Some (24 # 1)%Q, Some 2) ∧
  parse_folder_name "118_60_1_6_1mz" = Ok (None, None) ∧
  (∀ a b c d r t,
     digit_run a → digit_run b → digit_run c → digit_run d → digit_run r →
     stops_digits t = true →
     parse_folder_name
       (a +:+ "_" +:+ b +:+ "_" +:+ c +:+ "_" +:+ d +:+ "mz_" +:+ r +:+ t)
     = Ok (Some (decimal_value c d), Some (digits_value 0 r))) ∧
  (∀ a b c r t,
     digit_run a → digit_run b → digit_run c → digit_run r →
     stops_digits t = true →
     parse_folder_name (a +:+ "_" +:+ b +:+ "_" +:+ c +:+ "mz_" +:+ r +:+ t)
     = Ok (Some (Qmake (digits_value 0 c) 1), Some (digits_value 0 r))) ∧
  (∀ folder_name g1 g2 g3 g4 g5,
     re_match decimal_pattern folder_name = Some [g1; g2; g3; g4; g5] →
     parse_folder_name folder_name
     = Ok (Some (decimal_value g3 g4), Some (digits_value 0 g5))).
Proof.
  split; [reflexivity |]. split; [reflexivity |]. split; [reflexivity |].
  split; [apply parse_folder_name_decimal |].
  split; [apply parse_folder_name_integer | apply parse_folder_name_decimal_first].
Qed.

Lemma C4_witness :
  parse_folder_name "7_8_100_25mz_3_rerun"
  = Ok (Some (decimal_value "100" "25"), Some 3) ∧
  parse_folder_name "7_8_2mz_11"
  = Ok (Some (2 # 1)%Q, Some 11) ∧
  parse_folder_name "118_60_1_6mz_1"
  = Ok (Some (decimal_value "1" "6"), Some 1).
Proof.
  destruct C4_parse_folder_name as (_ & _ & _ & Hdec & Hint & Hfirst).
  split; [|split].
  - apply (Hdec "7" "8" "100" "25" "3" "_rerun");
      try (split; [reflexivity | discriminate]); reflexivity.
  - apply (Hint "7" "8" "2" "11" "");
      try (split; [reflexivity | discriminate]); reflexivity.
  - apply (Hfirst "118_60_1_6mz_1" "118" "60" "1" "6" "1"). reflexivity.
Defined.

(** C5 (as stated) fails: the identifier "a::b.1.1.2" parses to the run name
    "a::b", which holds the delimiter. *)
Lemma C5_counterexample :
  parse_spectrum_column (VStr "a::b.1.1.2") = Ok (Some "a::b", Some 1, Some 2) ∧
  create_spectrum_key "a::b" 1 = "a::b::1" ∧
  ¬ delimiter_safe "a::b" 1.
Proof.
  split; [reflexivity |]. split; [reflexivity |].
  intros (_ & H & _). vm_compute in H. discriminate H.
Qed.

(** C5 — Key delimiter, amended: the key is the run name, the delimiter "::"
    and the decimal text of the scan number; the delimiter (indeed any colon)
    never occurs in the scan-number component; the run name is passed through
    as it is and may hold the delimiter, yet the key still splits back into
    its two components at its last colon. *)
Theorem C5_key_delimiter (mzml_name : string) (scan_number : Z) :
  create_spectrum_key mzml_name scan_number
    = mzml_name +:+ "::" +:+ py_str_int scan_number ∧
  occurs ":" (py_str_int scan_number) = false ∧
  contains "::" (py_str_int scan_number) = false ∧
  rcut ":" (create_spectrum_key mzml_name scan_number)
    = Some (mzml_name +:+ ":", py_str_int scan_number).
Proof.
  split; [reflexivity |].
  split; [apply py_str_int_no_colon |].
  split; [apply contains_absent, py_str_int_no_colon |].
  apply create_spectrum_key_rcut.
Qed.

(** ** Rows of the final table *)

Lemma annotated_row_other (counts : gmap value nat) (r : gmap string value) (c : string) :
  c ≠ "n_psm" → c ≠ "is_chimeric" → annotated_row counts r !! c = r !! c.
Proof. intros H1 H2. unfold annotated_row. by rewrite !lookup_insert_ne. Qed.

Lemma annotated_row_absent_key (counts : gmap value nat) (r : gmap string value) :
  cell r "spectrum_key" = VNone →
  annotated_row counts r !! "n_psm" = Some VNone ∧
  annotated_row counts r !! "is_chimeric" = Some (VBool false).
Proof.
  intros Hk. unfold annotated_row. rewrite Hk.
  assert (E : map_counts counts VNone = VNone).
  { unfold map_counts. by destruct (counts !! VNone). }
  rewrite E. by simplify_map_eq.
Qed.

Lemma consolidated_rows (read_csv : Path → result DataFrame) (psm_files : list Path)
    (df : DataFrame) (r : gmap string value) :
  consolidated read_csv psm_files = Ok df → r ∈ rows df →
  ∃ df_all r0 counts,
    load_all read_csv psm_files = Ok df_all ∧ r0 ∈ rows df_all ∧
    r = annotated_row counts r0.
Proof.
  unfold consolidated. destruct (load_all read_csv psm_files) as [df_all|e]; [|done].
  simpl. intros [_ Hrows]%add_derived_columns_inv Hr.
  rewrite Hrows in Hr. apply list_elem_of_fmap in Hr as (r0 & -> & Hr0).
  by eexists df_all, r0, _.
Qed.

Lemma load_all_skip (read_csv : Path → result DataFrame) (psm_file : Path)
    (psm_files : list Path) :
  load_single_psm_file read_csv psm_file = None →
  load_all read_csv psm_files
  = load_all read_csv (filter (fun f => f ≠ psm_file) psm_files).
Proof.
  intros Hnone. unfold load_all. f_equal.
  induction psm_files as [|f fs IH]; [done |].
  rewrite filter_cons. destruct (decide (f ≠ psm_file)) as [Hne|Heq]; csimpl.
  - by rewrite IH.
  - apply dec_stable in Heq. subst f. by rewrite Hnone.
Qed.

(** * The properties of the design note, continued *)

(** C6 — Exclusion rule: a file whose containing folder is named "lib" is
    dropped by the discovery filter of [main] and, independently, by
    [load_single_psm_file]; the loaded table is the one obtained without the
    file, no row of a consolidated table comes from a folder named "lib", and
    nothing [main] does depends on what the file holds. *)
Theorem C6_lib_excluded (read_csv : Path → result DataFrame) (psm_file : Path) :
  name (parent psm_file) = "lib" →
  (∀ found : list Path,
     psm_file ∉ filter (fun f => not_in_lib f = true) found) ∧
  load_single_psm_file read_csv psm_file = None ∧
  (∀ psm_files,
     load_all read_csv psm_files
     = load_all read_csv (filter (fun f => f ≠ psm_file) psm_files)) ∧
  (∀ psm_files df r,
     consolidated read_csv psm_files = Ok df → r ∈ rows df →
     ∃ folder, r !! "source_folder" = Some (VStr folder) ∧ folder ≠ "lib") ∧
  (∀ read_csv' path_exists rglob path_of_str detected_project_dir cpu_count args,
     (∀ f, f ≠ psm_file → read_csv' f = read_csv f) →
     main read_csv' path_exists rglob path_of_str detected_project_dir cpu_count args
     = main read_csv path_exists rglob path_of_str detected_project_dir cpu_count args).
Proof.
  intros Hlib. split; [|split; [|split; [|split]]].
  - intros found [Hkeep _]%list_elem_of_filter.
    by rewrite (not_in_lib_folder _ Hlib) in Hkeep.
  - by apply load_single_psm_file_lib.
  - intros psm_files. by apply load_all_skip, load_single_psm_file_lib.
  - intros psm_files df r Hdf Hr.
    destruct (consolidated_rows _ _ _ _ Hdf Hr) as (df_all & r0 & counts & Hall & Hr0 & ->).
    destruct (load_all_rows _ _ _ _ Hall Hr0) as (f & d & _ & Hload & Hrd).
    destruct (load_single_psm_file_source _ _ _ _ Hload Hrd) as [Hsrc Hne].
    exists (name (parent f)). split; [|done].
    by rewrite annotated_row_other.
  - intros read_csv' path_exists rglob path_of_str detected_project_dir cpu_count
      args Hsame.
    apply main_ext. intros f.
    destruct (decide (f = psm_file)) as [->|Hne].
    + by rewrite !load_single_psm_file_lib.
    + unfold load_single_psm_file, load_body. by rewrite (Hsame f Hne).
Qed.

Lemma C6_witness :
  load_single_psm_file two_runs lib_file = None ∧
  lib_file ∉ filter (fun f => not_in_lib f = true) [run_file; lib_file; other_file].
Proof.
  destruct (C6_lib_excluded two_runs lib_file) as (Hfilter & Hload & _).
  - reflexivity.
  - split; [exact Hload | apply Hfilter].
Defined.



(** C8 — Idempotent batch load: on an unchanged file system, presenting the
    same files in another order gives the same outcome up to the order of the
    rows, both for the concatenated table and for the annotated table that is
    saved: the same number of rows, the same rows as multisets, the same
    column names, or the same failure. *)
Theorem C8_batch_load_order (read_csv : Path → result DataFrame)
    (psm_files psm_files' : list Path) :
  psm_files ≡ₚ psm_files' →
  same_table (load_all read_csv psm_files) (load_all read_csv psm_files') ∧
  same_table (consolidated read_csv psm_files) (consolidated read_csv psm_files').
Proof.
  intros H. assert (Hload := load_all_permutation read_csv _ _ H).
  split; [done |]. unfold consolidated.
  destruct (load_all read_csv psm_files) as [d|e],
           (load_all read_csv psm_files') as [d'|e']; try done.
  by apply add_derived_columns_permutation.
Qed.

Lemma C8_witness :
  same_table (load_all two_runs [run_file; other_file])
             (load_all two_runs [other_file; run_file]) ∧
  same_table (consolidated two_runs [run_file; other_file])
             (consolidated two_runs [other_file; run_file]).
Proof.
  apply (C8_batch_load_order two_runs [run_file; other_file] [other_file; run_file]).
  apply perm_swap.
Defined.

(** C9 — Configuration error: when no PSM directory is given on the command
    line and the search finds none, [main] prints its header, the error
    message and the instruction to pass [--psm-dir], and exits with status 1;
    it does nothing else: no file is handed to a worker, no directory is made
    and nothing is written. *)
Theorem C9_configuration_error (read_csv : Path → result DataFrame)
    (path_exists : Path → bool) (rglob : Path → string → list Path)
    (path_of_str : string → Path) (detected_project_dir : Path) (cpu_count : Z)
    (args : Args) :
  given (arg_psm_dir args) = None →
  find_psm_directory path_exists rglob
    (initial_config path_of_str detected_project_dir cpu_count args) = None →
  let run := main read_csv path_exists rglob path_of_str detected_project_dir
               cpu_count args in
  run.2 = Exit 1 ∧
  (∃ out, run.1 = out ++ [ Print (nl +:+ "❌ ERROR: Cannot find PSM directory!");
                           Print "   Specify with: --psm-dir /path/to/fragpipe/" ]) ∧
  forallb is_print run.1 = true ∧
  (∀ e, e ∈ run.1 → ∃ text, e = Print text).
Proof.
  intros Hgiven Hfind.
  pose proof (main_cannot_locate read_csv path_exists rglob path_of_str
                detected_project_dir cpu_count args) as H.
  simpl in H. rewrite (initial_config_not_given _ _ _ _ Hgiven) in H.
  destruct (H (or_introl Hfind)) as (Hexit & Hout & Hprint).
  simpl. split; [done |]. split; [done |]. split; [done |].
  intros e He. rewrite forallb_forall in Hprint.
  apply list_elem_of_In, Hprint in He. destruct e; try done. eauto.
Qed.

Lemma C9_witness :
  (main two_runs nothing_exists nothing_found one_component some_project 8
     default_args).2 = Exit 1.
Proof.
  apply (C9_configuration_error two_runs nothing_exists nothing_found
           one_component some_project 8 default_args); reflexivity.
Defined.

(** C10 — Records without a key are not chimeric: in the table
    [add_derived_columns] returns, a record whose spectrum key is absent has
    an absent count and the flag [False] (present, not absent); it is not a
    row of the chimeric selection nor of the table [save_outputs] writes to
    psm_chimeric.csv. *)
Theorem C10_absent_key_not_chimeric (df df' : DataFrame) (r : gmap string value) :
  add_derived_columns df = Ok df' →
  r ∈ rows df' →
  cell r "spectrum_key" = VNone →
  r !! "n_psm" = Some VNone ∧
  r !! "is_chimeric" = Some (VBool false) ∧
  (r ∉ rows (select_true "is_chimeric" df')) ∧
  (∀ config summary d,
     WriteCsv (output_dir config // "psm_chimeric.csv") d
       ∈ save_outputs df' config summary →
     r ∉ rows d).
Proof.
  intros Hadd Hr Hkey. apply add_derived_columns_inv in Hadd as [_ Hrows].
  rewrite Hrows in Hr. apply list_elem_of_fmap in Hr as (r0 & -> & _).
  rewrite annotated_row_key in Hkey.
  destruct (annotated_row_absent_key
              (groupby_size ((fun r => cell r "spectrum_key") <$> rows df)) r0 Hkey)
    as [Hn Hflag].
  set (r := annotated_row _ r0) in *.
  assert (Hsel : r ∉ rows (select_true "is_chimeric" df')).
  { unfold select_true. simpl. intros [Htrue _]%list_elem_of_filter.
    unfold cell in Htrue. by rewrite Hflag in Htrue. }
  split; [done |]. split; [done |]. split; [done |].
  intros config summary d Hin. unfold save_outputs in Hin.
  rewrite !elem_of_cons, elem_of_nil in Hin.
  repeat destruct Hin as [Hin|Hin]; try done.
  - injection Hin as Hp _. by apply app_inv_head in Hp.
  - by injection Hin as ->.
Qed.

Lemma C10_witness :
  ∃ df' r,
    consolidated two_runs [run_file] = Ok df' ∧ rows df' !! 1%nat = Some r ∧
    r !! "Peptide" = Some (VStr "PEPTIDEB") ∧
    r !! "n_psm" = Some VNone ∧ r !! "is_chimeric" = Some (VBool false) ∧
    r ∉ rows (select_true "is_chimeric" df').
Proof.
  destruct (load_all two_runs [run_file]) as [df|e] eqn:Eload;
    [|vm_compute in Eload; discriminate Eload].
  destruct (add_derived_columns df) as [df'|e] eqn:Eadd;
    [|injection Eload as <-; vm_compute in Eadd; discriminate Eadd].
  destruct (rows df' !! 1%nat) as [r|] eqn:Er.
  2:{ injection Eload as <-. vm_compute in Eadd. injection Eadd as <-.
      vm_compute in Er. discriminate Er. }
  exists df', r.
  assert (Hkey : cell r "spectrum_key" = VNone ∧ r !! "Peptide" = Some (VStr "PEPTIDEB")).
  { injection Eload as <-. vm_compute in Eadd. injection Eadd as <-.
    vm_compute in Er. injection Er as <-. split; reflexivity. }
  destruct Hkey as [Hkey Hpep].
  destruct (C10_absent_key_not_chimeric df df' r Eadd) as (Hn & Hflag & Hsel & _).
  - by eapply list_elem_of_lookup_2.
  - exact Hkey.
  - unfold consolidated. by rewrite Eload.
Defined.

(** * Further properties of the code *)

(** ** Reading back the text of an integer *)













(** ** What the loader returns *)

Lemma load_single_psm_file_unreadable (read_csv : Path → result DataFrame)
    (psm_file : Path) (e : exn) :
  read_csv psm_file = Raise e → load_single_psm_file read_csv psm_file = None.
Proof.
  intros H. unfold load_single_psm_file, load_body. rewrite H. simpl.
  by destruct (String.eqb _ _).
Qed.

Lemma load_single_psm_file_empty (read_csv : Path → result DataFrame)
    (psm_file : Path) (df : DataFrame) :
  read_csv psm_file = Ok df → rows df = [] →
  load_single_psm_file read_csv psm_file = None.
Proof.
  intros H Hnil. unfold load_single_psm_file, load_body. rewrite H.
  unfold rbind at 1. rewrite Hnil. simpl. by destruct (String.eqb _ _).
Qed.

Lemma load_single_psm_file_no_spectrum (read_csv : Path → result DataFrame)
    (psm_file : Path) (df : DataFrame) :
  read_csv psm_file = Ok df → "Spectrum" ∉ columns df →
  load_single_psm_file read_csv psm_file = None.
Proof.
  intros H Hcol. destruct (decide (rows df = [])) as [Hnil|Hne].
  - by eapply load_single_psm_file_empty.
  - unfold load_single_psm_file.
    rewrite (load_body_no_spectrum _ _ _ _ H Hne Hcol).
    by destruct (String.eqb _ _).
Qed.

(** X3 — When a file is given up: [load_single_psm_file] returns no table
    exactly when the file sits in a folder named "lib", or reading it fails,
    or the table read has no row, or it has no [Spectrum] column. In every
    other case the file is loaded. *)
Theorem X3_file_dropped_iff (read_csv : Path → result DataFrame) (psm_file : Path) :
  load_single_psm_file read_csv psm_file = None ↔
  name (parent psm_file) = "lib" ∨
  (∃ e, read_csv psm_file = Raise e) ∨
  (∃ df, read_csv psm_file = Ok df ∧ (rows df = [] ∨ "Spectrum" ∉ columns df)).
Proof.
  split.
  - intros Hnone.
    destruct (decide (name (parent psm_file) = "lib")) as [|Hlib]; [by left |].
    right. destruct (read_csv psm_file) as [df|e] eqn:Hread; [right | left; eauto].
    exists df. split; [done |].
    destruct (decide (rows df = [])) as [|Hne]; [by left |].
    destruct (decide ("Spectrum" ∈ columns df)) as [Hcol|]; [|by right].
    destruct (load_single_psm_file_ok _ _ _ Hlib Hread Hne Hcol) as (? & ? & _ & E).
    by rewrite E in Hnone.
  - intros [Hlib|[[e He]|(df & Hread & [Hnil|Hcol])]].
    + by apply load_single_psm_file_lib.
    + by eapply load_single_psm_file_unreadable.
    + by eapply load_single_psm_file_empty.
    + by eapply load_single_psm_file_no_spectrum.
Qed.




Lemma loaded_row_folder (folder_name : string) (window_mz : option Q)
    (replicate : option Z) (r : gmap string value) :
  loaded_row folder_name window_mz replicate r !! "window_mz"
  = Some (of_opt_float window_mz) ∧
  loaded_row folder_name window_mz replicate r !! "replicate"
  = Some (of_opt_int replicate).
Proof. unfold loaded_row. split; by simplify_map_eq. Qed.

(** X5 — Folder annotation: every row of a loaded file carries the name of
    the file's folder and the window and replicate read from that name; a
    folder whose name matches neither pattern still has its file loaded, with
    window and replicate absent on every row. *)
Theorem X5_folder_annotation (read_csv : Path → result DataFrame)
    (psm_file : Path) (df' : DataFrame) :
  load_single_psm_file read_csv psm_file = Some df' →
  ∃ window_mz replicate,
    parse_folder_name (name (parent psm_file)) = Ok (window_mz, replicate) ∧
    ∀ r, r ∈ rows df' →
      r !! "source_folder" = Some (VStr (name (parent psm_file))) ∧
      r !! "window_mz" = Some (of_opt_float window_mz) ∧
      r !! "replicate" = Some (of_opt_int replicate).
Proof.
  intros Hload.
  apply load_single_psm_file_inv in Hload
    as (df & w & rep & _ & _ & _ & _ & Hf & ->).
  exists w, rep. split; [done |].
  intros r (r0 & -> & _)%list_elem_of_fmap.
  split; [apply loaded_row_source_folder | apply loaded_row_folder].
Qed.

Lemma X5_witness :
  ∃ df' r, load_single_psm_file two_runs run_file = Some df' ∧
           rows df' !! 1%nat = Some r ∧
           r !! "source_folder" = Some (VStr "86_45_24mz_2").
Proof.
  set (df' := loaded_of (load_single_psm_file two_runs run_file)).
  assert (E : load_single_psm_file two_runs run_file = Some df')
    by (vm_compute; reflexivity).
  assert (Er : rows df' !! 1%nat = Some (row_at df' 1)) by (vm_compute; reflexivity).
  exists df', (row_at df' 1). split; [exact E |]. split; [exact Er |].
  destruct (X5_folder_annotation two_runs run_file df' E) as (w & rep & _ & H).
  apply H. exact (list_elem_of_lookup_2 _ _ _ Er).
Defined.

(** ** The concatenated table *)

Lemma omap_load_nil (read_csv : Path → result DataFrame) (psm_files : list Path) :
  omap id (load_single_psm_file read_csv <$> psm_files) = [] ↔
  ∀ f, f ∈ psm_files → load_single_psm_file read_csv f = None.
Proof.
  induction psm_files as [|f fs IH]; csimpl.
  - split; [intros _ f []%elem_of_nil | done].
  - destruct (load_single_psm_file read_csv f) as [d|] eqn:E; simpl.
    + split; [done |]. intros H. specialize (H f (list_elem_of_here _ _)). congruence.
    + rewrite IH. split.
      * intros H g [->|Hg]%elem_of_cons; [done | by apply H].
      * intros H g Hg. apply H. by right.
Qed.

Lemma loaded_frame_shape (read_csv : Path → result DataFrame) (psm_file : Path)
    (df : DataFrame) :
  load_single_psm_file read_csv psm_file = Some df →
  rows df ≠ [] ∧ ∀ c, c ∈ loader_columns → c ∈ columns df.
Proof.
  intros (df0 & w & rep & _ & _ & Hne & _ & _ & ->)%load_single_psm_file_inv.
  simpl. split.
  - destruct (rows df0); [done | by csimpl].
  - intros c Hc. unfold loaded_columns. apply elem_of_foldl_add_name. by right.
Qed.

(** X6 — Outcome of the batch load: [load_all] fails exactly when none of the
    files yields a table, and then with the [ValueError] of an empty
    [pd.concat]; when it succeeds the table has at least one row and the
    [spectrum_key] column, so [add_derived_columns] cannot fail on it. *)
Theorem X6_load_all_outcome (read_csv : Path → result DataFrame)
    (psm_files : list Path) :
  (load_all read_csv psm_files = Raise ValueError ↔
   ∀ f, f ∈ psm_files → load_single_psm_file read_csv f = None) ∧
  (∀ e, load_all read_csv psm_files = Raise e → e = ValueError) ∧
  (∀ df, load_all read_csv psm_files = Ok df →
     rows df ≠ [] ∧ "spectrum_key" ∈ columns df ∧
     ∃ df', add_derived_columns df = Ok df').
Proof.
  unfold load_all, pd_concat. rewrite <- omap_load_nil.
  destruct (omap id (load_single_psm_file read_csv <$> psm_files))
    as [|d ds] eqn:E.
  - split; [done |]. split; [by intros e [= <-] | done].
  - split; [done |]. split; [done |].
    intros df [= <-].
    assert (Hd : ∃ f, load_single_psm_file read_csv f = Some d).
    { assert (Hin : d ∈ omap id (load_single_psm_file read_csv <$> psm_files))
        by (rewrite E; left).
      apply list_elem_of_omap in Hin as (o & (f & -> & _)%list_elem_of_fmap & Ho).
      eauto. }
    destruct Hd as [f Hf]. apply loaded_frame_shape in Hf as [Hne Hcols].
    assert (Hkey : "spectrum_key" ∈
              foldl (fun acc df => foldl add_name acc (columns df)) [] (d :: ds)).
    { apply elem_of_concat_columns. right. exists d. split; [left |].
      apply Hcols. unfold loader_columns. repeat constructor. }
    split; [|split; [exact Hkey |]].
    + simpl. destruct (rows d); [done | by csimpl].
    + eexists. by apply add_derived_columns_rows.
Qed.

Lemma X6_witness :
  load_all two_runs [lib_file] = Raise ValueError ∧
  ∃ df', add_derived_columns (loaded_of (load_single_psm_file two_runs run_file))
         = Ok df'.
Proof.
  split.
  - apply (proj1 (X6_load_all_outcome two_runs [lib_file])).
    intros f Hf. apply list_elem_of_singleton in Hf. subst f. reflexivity.
  - apply (proj2 (proj2 (X6_load_all_outcome two_runs [run_file]))).
    vm_compute. reflexivity.
Defined.

(** ** The chimeric selection *)

Lemma annotated_row_flag (df : DataFrame) (r0 : gmap string value) :
  r0 ∈ rows df →
  let counts := groupby_size ((fun r => cell r "spectrum_key") <$> rows df) in
  let k := cell r0 "spectrum_key" in
  cell (annotated_row counts r0) "is_chimeric"
  = VBool (notna k && (2 <=? Z.of_nat (records_sharing k df))).
Proof.
  intros Hr. simpl. unfold annotated_row, cell at 1. rewrite lookup_insert_eq. simpl.
  rewrite (annotated_row_count df r0 Hr). by destruct (notna _).
Qed.

Lemma notna_true (v : value) : notna v = true ↔ v ≠ VNone.
Proof. destruct v; simpl; split; done. Qed.

(** X7 — The chimeric table: after [add_derived_columns], the rows selected
    for the chimeric output are exactly the rows that have a spectrum key
    shared by at least two rows of the table. *)
Theorem X7_chimeric_selection (df df' : DataFrame) (r : gmap string value) :
  add_derived_columns df = Ok df' →
  (r ∈ rows (select_true "is_chimeric" df') ↔
   r ∈ rows df' ∧ cell r "spectrum_key" ≠ VNone ∧
   (2 ≤ records_sharing (cell r "spectrum_key") df')%nat).
Proof.
  intros Hadd. apply add_derived_columns_inv in Hadd as [_ Hrows].
  destruct df' as [cols' rs']. simpl in Hrows. subst rs'.
  unfold select_true. cbn [rows]. rewrite list_elem_of_filter.
  split.
  - intros [Hflag Hin]. split; [done |].
    apply list_elem_of_fmap in Hin as (r0 & -> & Hr0).
    rewrite (annotated_row_flag df r0 Hr0) in Hflag.
    rewrite annotated_row_key, (records_sharing_annotated _ (columns df)).
    replace (mkFrame (columns df) (rows df)) with df by (by destruct df).
    injection Hflag as Hflag. apply andb_true_iff in Hflag as [Hk Hn].
    split; [by apply notna_true |]. apply Z.leb_le in Hn. lia.
  - intros (Hin & Hk & Hn). split; [|done].
    apply list_elem_of_fmap in Hin as (r0 & -> & Hr0).
    rewrite (annotated_row_flag df r0 Hr0).
    rewrite annotated_row_key in Hk, Hn.
    rewrite (records_sharing_annotated _ (columns df)) in Hn.
    replace (mkFrame (columns df) (rows df)) with df in Hn by (by destruct df).
    apply notna_true in Hk. rewrite Hk. simpl. f_equal. apply Z.leb_le. lia.
Qed.

Lemma X7_witness :
  let df' := table_of (add_derived_columns chimeric_example) in
  row_at df' 0 ∈ rows (select_true "is_chimeric" df') ∧
  ¬ row_at df' 1 ∈ rows (select_true "is_chimeric" df').
Proof.
  set (df' := table_of (add_derived_columns chimeric_example)). simpl.
  assert (E : add_derived_columns chimeric_example = Ok df')
    by (vm_compute; reflexivity).
  split.
  - apply (proj2 (X7_chimeric_selection chimeric_example df' (row_at df' 0) E)).
    split; [|split].
    + apply (list_elem_of_lookup_2 _ 0%nat). vm_compute. reflexivity.
    + vm_compute. discriminate.
    + vm_compute. lia.
  - intros H.
    apply (proj1 (X7_chimeric_selection chimeric_example df' (row_at df' 1) E)) in H
      as (_ & _ & Hn).
    vm_compute in Hn. lia.
Defined.

Lemma add_name_present (cols : list string) (c : string) :
  c ∈ cols → add_name cols c = cols.
Proof. intros H. unfold add_name. by rewrite bool_decide_true. Qed.

Lemma annotated_row_twice (counts : gmap value nat) (r : gmap string value) :
  annotated_row counts (annotated_row counts r) = annotated_row counts r.
Proof.
  unfold annotated_row at 1. rewrite annotated_row_key.
  unfold annotated_row. apply map_eq. intros c.
  destruct (decide (c = "is_chimeric")) as [->|H1]; [by rewrite !lookup_insert_eq |].
  destruct (decide (c = "n_psm")) as [->|H2].
  - rewrite !(lookup_insert_ne _ "is_chimeric" "n_psm") by done.
    by rewrite !lookup_insert_eq.
  - by rewrite !lookup_insert_ne by done.
Qed.

(** X8 — The aggregation is idempotent: running [add_derived_columns] on its
    own result succeeds and returns that result unchanged, header and rows. *)
Theorem X8_add_derived_columns_idempotent (df df' : DataFrame) :
  add_derived_columns df = Ok df' → add_derived_columns df' = Ok df'.
Proof.
  intros Hadd.
  destruct (decide ("spectrum_key" ∈ columns df)) as [Hcol|Hcol].
  2:{ by apply add_derived_columns_inv in Hadd as [? _]. }
  rewrite (add_derived_columns_rows df Hcol) in Hadd. injection Hadd as <-.
  rewrite add_derived_columns_rows by (cbn [columns]; rewrite !elem_of_add_name; auto).
  cbn [columns rows]. f_equal. f_equal.
  - rewrite (add_name_present _ "n_psm") by (rewrite !elem_of_add_name; auto).
    by rewrite (add_name_present _ "is_chimeric") by (rewrite !elem_of_add_name; auto).
  - rewrite <- !list_fmap_compose.
    apply list_fmap_ext. intros i r _. simpl.
    replace ((fun r0 => cell r0 "spectrum_key") ∘ annotated_row
               (groupby_size ((fun r0 => cell r0 "spectrum_key") <$> rows df)) <$> rows df)
      with ((fun r0 => cell r0 "spectrum_key") <$> rows df).
    + apply annotated_row_twice.
    + apply list_fmap_ext. intros j r1 _. simpl. by rewrite annotated_row_key.
Qed.

Lemma X8_witness :
  add_derived_columns (table_of (add_derived_columns chimeric_example))
  = Ok (table_of (add_derived_columns chimeric_example)).
Proof.
  apply (X8_add_derived_columns_idempotent chimeric_example).
  vm_compute. reflexivity.
Defined.

(** ** The validation summary *)

Lemma abind_result {A B : Type} (m : action A) (k : A → action B) :
  (abind m k).2 = match m.2 with Ok a => (k a).2 | Raise e => Raise e end.
Proof. destruct m as [out [a|e]]; simpl; [by destruct (k a) | done]. Qed.

Lemma getitem_ok (df : DataFrame) (c : string) (l : list value) :
  getitem df c = Ok l ↔ c ∈ columns df ∧ l = (fun r => cell r c) <$> rows df.
Proof.
  unfold getitem, has_column. case_bool_decide; split.
  - by intros [= <-].
  - by intros [_ ->].
  - done.
  - by intros [? _].
Qed.

Lemma getitem_raise (df : DataFrame) (c : string) (e : exn) :
  getitem df c = Raise e ↔ (c ∉ columns df) ∧ e = KeyError.
Proof.
  unfold getitem, has_column. case_bool_decide; split.
  - done.
  - by intros [? _].
  - by intros [= <-].
  - by intros [_ ->].
Qed.

Lemma nunique_le_length (l : list value) : (nunique l ≤ length l)%nat.
Proof.
  unfold nunique. induction l as [|v l IH]; [done |].
  rewrite filter_cons. destruct (decide (notna v = true)); simpl; [|lia].
  set (X := list_to_set (filter (fun v => notna v = true) l) : gset value) in *.
  rewrite size_union_alt, size_singleton.
  assert (H : (size (X ∖ {[v]}) ≤ size X)%nat).
  { apply subseteq_size. intros x Hx. by apply elem_of_difference in Hx as [? _]. }
  lia.
Qed.

Lemma nunique_subseteq (l1 l2 : list value) :
  (∀ v, v ∈ l1 → v ∈ l2) → (nunique l1 ≤ nunique l2)%nat.
Proof.
  intros H. unfold nunique. apply subseteq_size.
  intros v. rewrite !elem_of_list_to_set, !list_elem_of_filter.
  intros [? ?]. auto.
Qed.

Lemma nunique_zero (l : list value) :
  nunique l = 0%nat ↔ ∀ v, v ∈ l → v = VNone.
Proof.
  unfold nunique. rewrite size_empty_iff. split.
  - intros H v Hv. destruct (notna v) eqn:E; [|by destruct v].
    exfalso. apply (proj1 (elem_of_equiv_empty _) H v).
    apply elem_of_list_to_set, list_elem_of_filter. done.
  - intros H. apply elem_of_equiv_empty. intros v.
    rewrite elem_of_list_to_set, list_elem_of_filter. intros [Hn Hv].
    by rewrite (H v Hv) in Hn.
Qed.

Lemma print_validation_stats_result (df : DataFrame) :
  (print_validation_stats df).2 =
    if bool_decide ("spectrum_key" ∈ columns df ∧ "mzml_name" ∈ columns df ∧
                    "is_chimeric" ∈ columns df)
    then
      let keys := (fun r => cell r "spectrum_key") <$> rows df in
      if (nunique keys =? 0)%nat then Raise ZeroDivisionError
      else if bool_decide ("window_mz" ∈ columns df ∧ "n_psm" ∈ columns df ∧
                           "scan_number" ∈ columns df)
      then Ok {| n_psm := length (rows df);
                 n_spectra := nunique keys;
                 n_files := nunique ((fun r => cell r "mzml_name") <$> rows df);
                 n_chimeric_spectra :=
                   nunique ((fun r => cell r "spectrum_key")
                            <$> rows (select_true "is_chimeric" df));
                 avg_psm_per_spectrum :=
                   Qmake (Z.of_nat (length (rows df))) (Pos.of_nat (nunique keys));
                 summary_columns := columns df |}
      else Raise KeyError
    else Raise KeyError.
Proof.
  unfold print_validation_stats, getitem, has_column, select_true. cbn [columns rows].
  repeat (rewrite abind_result; cbn [emit lift snd]).
  repeat case_bool_decide; try done; try (exfalso; tauto).
  all: repeat (rewrite abind_result; cbn [emit lift snd]).
  all: destruct (nunique _ =? 0)%nat; try done.
  all: repeat (rewrite abind_result; cbn [emit lift snd]); try done.
Qed.

(** X9 — Consistency of the summary: whenever [print_validation_stats]
    returns, the number of chimeric spectra is at most the number of spectra,
    which is positive and at most the number of records; the number of runs
    is at most the number of records; the average number of records per
    spectrum is at least 1; the column list is the header of the table. *)
Theorem X9_summary_consistent (df : DataFrame) (s : Summary) :
  (print_validation_stats df).2 = Ok s →
  (n_chimeric_spectra s ≤ n_spectra s ≤ n_psm s)%nat ∧
  (0 < n_spectra s)%nat ∧
  (n_files s ≤ n_psm s)%nat ∧
  (1 <= avg_psm_per_spectrum s)%Q ∧
  n_psm s = length (rows df) ∧
  summary_columns s = columns df.
Proof.
  rewrite print_validation_stats_result. cbv zeta.
  case_bool_decide; [|done].
  destruct (nunique _ =? 0)%nat eqn:Hz; [done |].
  case_bool_decide; [|done]. intros [= <-].
  cbn [n_psm n_spectra n_files n_chimeric_spectra avg_psm_per_spectrum summary_columns].
  apply Nat.eqb_neq in Hz.
  set (keys := (fun r => cell r "spectrum_key") <$> rows df) in *.
  assert (Hk : (nunique keys ≤ length (rows df))%nat).
  { etrans; [apply nunique_le_length |]. unfold keys. by rewrite length_fmap. }
  assert (Hc : (nunique ((fun r => cell r "spectrum_key")
                          <$> rows (select_true "is_chimeric" df)) ≤ nunique keys)%nat).
  { apply nunique_subseteq. intros v.
    rewrite list_elem_of_fmap. intros (r & -> & Hr). cbn in Hr.
    apply list_elem_of_filter in Hr as [_ Hr].
    unfold keys. apply list_elem_of_fmap. by exists r. }
  assert (Hf : (nunique ((fun r => cell r "mzml_name") <$> rows df)
                ≤ length (rows df))%nat).
  { etrans; [apply nunique_le_length |]. by rewrite length_fmap. }
  split; [split; [exact Hc | exact Hk] |].
  split; [lia |]. split; [done |]. split; [|done].
  unfold Qle. simpl. rewrite Z.mul_1_r.
  destruct (nunique keys) as [|n] eqn:En; [done |].
  rewrite <- Pos.of_nat_succ, Zpos_P_of_succ_nat. lia.
Qed.

(** X10 — When the validation divides by zero: [print_validation_stats] ends
    in a [ZeroDivisionError] exactly when the table has the columns it reads
    first and no row of it has a spectrum key; a table in which every
    identifier failed to parse therefore stops the run at this point. *)
Theorem X10_no_key_division_by_zero (df : DataFrame) :
  (print_validation_stats df).2 = Raise ZeroDivisionError ↔
  ("spectrum_key" ∈ columns df ∧ "mzml_name" ∈ columns df ∧
   "is_chimeric" ∈ columns df) ∧
  ∀ r, r ∈ rows df → cell r "spectrum_key" = VNone.
Proof.
  rewrite print_validation_stats_result. cbv zeta.
  assert (Hz : ∀ l : list (gmap string value),
             nunique ((fun r => cell r "spectrum_key") <$> l) = 0%nat ↔
             ∀ r, r ∈ l → cell r "spectrum_key" = VNone).
  { intros l. rewrite nunique_zero. split.
    - intros H r Hr. apply H, list_elem_of_fmap. eauto.
    - intros H v (r & -> & Hr)%list_elem_of_fmap. by apply H. }
  case_bool_decide as Hc.
  - destruct (nunique _ =? 0)%nat eqn:E.
    + apply Nat.eqb_eq in E. pose proof (proj1 (Hz _) E) as E'. done.
    + apply Nat.eqb_neq in E. split.
      * by case_bool_decide.
      * intros [_ H]. by pose proof (proj2 (Hz _) H).
  - split; [done | by intros [? _]].
Qed.

Lemma X9_witness :
  ∃ s, (print_validation_stats
          (table_of (consolidated two_runs [run_file; other_file]))).2 = Ok s ∧
       (0 < n_spectra s)%nat.
Proof.
  eexists. split.
  - vm_compute. reflexivity.
  - refine (proj1 (proj2 (X9_summary_consistent
                            (table_of (consolidated two_runs [run_file; other_file]))
                            _ _))).
    vm_compute. reflexivity.
Defined.
